(** * A 4-bit HD44780 character-LCD driver (lcd_16x2.c / lcd_16x2.h)

    The driver bit-bangs the display over six GPIO lines.  Its only
    observable behaviour is the sequence of calls it makes to the two
    hardware primitives [pin_write] and [delay_us]/[delay_ms]; the model
    below records those calls in a trace and threads the driver's global
    variables through every function as an explicit state. *)

From Stdlib Require Import ZArith List Lia Bool String Ascii DecimalString.
From Stdlib Require DecimalPos DecimalZ.
Import ListNotations.
Open Scope Z_scope.

(** ** Constants of lcd_16x2.h *)

Module Hdr.
(* commands *)
Definition LCD_CLEARDISPLAY : Z := 0x01.
Definition LCD_RETURNHOME : Z := 0x02.
Definition LCD_ENTRYMODESET : Z := 0x04.
Definition LCD_DISPLAYCONTROL : Z := 0x08.
Definition LCD_CURSORSHIFT : Z := 0x10.
Definition LCD_FUNCTIONSET : Z := 0x20.
Definition LCD_SETCGRAMADDR : Z := 0x40.
Definition LCD_SETDDRAMADDR : Z := 0x80.
(* flags for display entry mode *)
Definition LCD_ENTRYRIGHT : Z := 0x00.
Definition LCD_ENTRYLEFT : Z := 0x02.
Definition LCD_ENTRYSHIFTINCREMENT : Z := 0x01.
Definition LCD_ENTRYSHIFTDECREMENT : Z := 0x00.
(* flags for display on/off control *)
Definition LCD_DISPLAYON : Z := 0x04.
Definition LCD_DISPLAYOFF : Z := 0x00.
Definition LCD_CURSORON : Z := 0x02.
Definition LCD_CURSOROFF : Z := 0x00.
Definition LCD_BLINKON : Z := 0x01.
Definition LCD_BLINKOFF : Z := 0x00.
(* flags for display/cursor shift *)
Definition LCD_DISPLAYMOVE : Z := 0x08.
Definition LCD_CURSORMOVE : Z := 0x00.
Definition LCD_MOVERIGHT : Z := 0x04.
Definition LCD_MOVELEFT : Z := 0x00.
(* flags for function set *)
Definition LCD_8BITMODE : Z := 0x10.
Definition LCD_4BITMODE : Z := 0x00.
Definition LCD_2LINE : Z := 0x08.
Definition LCD_1LINE : Z := 0x00.
Definition LCD_5x10DOTS : Z := 0x04.
Definition LCD_5x8DOTS : Z := 0x00.

Definition NUM_LINES : Z := 2.
End Hdr.
Import Hdr.

(** ** C integer conversions *)

(** Conversion to [uint8_t]: reduction modulo 2^8. *)
Definition u8 (x : Z) : Z := x mod 256.

(** A C condition [if (e)] tests [e != 0]. *)
Definition c_true (x : Z) : bool := negb (x =? 0).

(** ** Hardware events and driver state *)

(** One call to a hardware primitive, with the arguments it was given. *)
Inductive event : Type :=
| PinWrite (pin_no value : Z)
| DelayUs (us_time : Z)
| DelayMs (ms_time : Z).

Definition trace : Type := list event.

(** The file-scope variables of lcd_16x2.c (lines 20-29). *)
Record lcd : Type := mkLcd {
  rs_pin : Z;
  en_pin : Z;
  dat4_pin : Z;
  dat5_pin : Z;
  dat6_pin : Z;
  dat7_pin : Z;
  display_function : Z;
  display_control : Z;
  display_mode : Z
}.

(** Their values at program start: all zero. *)
Definition lcd_boot : lcd := mkLcd 0 0 0 0 0 0 0 0 0.

(** [row_offsets] (line 30); the driver only ever reads it. *)
Definition row_offsets : list Z := [0x00; 0x40; 0x10; 0x50].

Definition set_pins (rs en d4 d5 d6 d7 : Z) (s : lcd) : lcd :=
  mkLcd rs en d4 d5 d6 d7
        (display_function s) (display_control s) (display_mode s).
Definition set_display_function (v : Z) (s : lcd) : lcd :=
  mkLcd (rs_pin s) (en_pin s) (dat4_pin s) (dat5_pin s) (dat6_pin s)
        (dat7_pin s) v (display_control s) (display_mode s).
Definition set_display_control (v : Z) (s : lcd) : lcd :=
  mkLcd (rs_pin s) (en_pin s) (dat4_pin s) (dat5_pin s) (dat6_pin s)
        (dat7_pin s) (display_function s) v (display_mode s).
Definition set_display_mode (v : Z) (s : lcd) : lcd :=
  mkLcd (rs_pin s) (en_pin s) (dat4_pin s) (dat5_pin s) (dat6_pin s)
        (dat7_pin s) (display_function s) (display_control s) v.

(** ** The driver monad

    A C function of the driver becomes a function from the state of the
    globals to [Some (result, new state, events emitted)], or to [None]
    where C leaves the behaviour undefined (an access outside an array). *)

Definition M (A : Type) : Type := lcd -> option (A * lcd * trace).

Definition ret {A} (a : A) : M A := fun s => Some (a, s, []).

Definition bind {A B} (m : M A) (k : A -> M B) : M B :=
  fun s =>
    match m s with
    | None => None
    | Some (a, s1, t1) =>
        match k a s1 with
        | None => None
        | Some (b, s2, t2) => Some (b, s2, t1 ++ t2)
        end
    end.

Definition undefined {A} : M A := fun _ => None.
Definition gets {A} (f : lcd -> A) : M A := fun s => Some (f s, s, []).
Definition modify (f : lcd -> lcd) : M unit := fun s => Some (tt, f s, []).
Definition emit (e : event) : M unit := fun s => Some (tt, s, [e]).

Declare Scope lcd_scope.
Delimit Scope lcd_scope with lcd.
Notation "x <- m ;; k" := (bind m (fun x => k))
  (at level 61, m at next level, right associativity) : lcd_scope.
Notation "m ;; k" := (bind m (fun _ => k))
  (at level 61, right associativity) : lcd_scope.
Open Scope lcd_scope.

(** ** Low-level functions specific to the hardware (lines 379-407) *)

Definition delay_us (us_time : Z) : M unit := emit (DelayUs us_time).
Definition delay_ms (ms_time : Z) : M unit := emit (DelayMs ms_time).
Definition pin_write (pin_no value : Z) : M unit := emit (PinWrite pin_no value).

(** ** Transmission layer (lines 294-367) *)

Definition enable_pulse : M unit :=
  en <- gets en_pin ;; pin_write en 0 ;;
  delay_us 1 ;;
  en <- gets en_pin ;; pin_write en 1 ;;
  delay_us 1 ;;
  en <- gets en_pin ;; pin_write en 0 ;;
  delay_us 100.

Definition lcd_write_data (data : Z) : M unit :=
  (if c_true (Z.land data 1)
   then p <- gets dat4_pin ;; pin_write p 1
   else p <- gets dat4_pin ;; pin_write p 0) ;;
  (if c_true (Z.land data 2)
   then p <- gets dat5_pin ;; pin_write p 1
   else p <- gets dat5_pin ;; pin_write p 0) ;;
  (if c_true (Z.land data 4)
   then p <- gets dat6_pin ;; pin_write p 1
   else p <- gets dat6_pin ;; pin_write p 0) ;;
  (if c_true (Z.land data 8)
   then p <- gets dat7_pin ;; pin_write p 1
   else p <- gets dat7_pin ;; pin_write p 0) ;;
  enable_pulse.

Definition lcd_send (value mode : Z) : M unit :=
  rs <- gets rs_pin ;; pin_write rs mode ;;
  lcd_write_data (u8 (Z.shiftr value 4)) ;;
  lcd_write_data value.

Definition lcd_command (cmd : Z) : M unit := lcd_send cmd 0.

Definition lcd_write (value : Z) : M unit := lcd_send value 1.

(** ** Feature API (lines 51-285) *)

Definition lcd_display_off : M unit :=
  dc <- gets display_control ;;
  modify (set_display_control (u8 (Z.land dc (Z.lnot LCD_DISPLAYON)))) ;;
  dc <- gets display_control ;;
  lcd_command (u8 (Z.lor LCD_DISPLAYCONTROL dc)).

Definition lcd_display_on : M unit :=
  dc <- gets display_control ;;
  modify (set_display_control (u8 (Z.lor dc LCD_DISPLAYON))) ;;
  dc <- gets display_control ;;
  lcd_command (u8 (Z.lor LCD_DISPLAYCONTROL dc)).

Definition lcd_clear : M unit :=
  lcd_command LCD_CLEARDISPLAY ;;
  delay_ms 2.

Definition lcd_home : M unit :=
  lcd_command LCD_RETURNHOME ;;
  delay_ms 2.

Definition lcd_shift_left : M unit :=
  lcd_command (Z.lor (Z.lor LCD_CURSORSHIFT LCD_DISPLAYMOVE) LCD_MOVELEFT).

Definition lcd_shift_right : M unit :=
  lcd_command (Z.lor (Z.lor LCD_CURSORSHIFT LCD_DISPLAYMOVE) LCD_MOVERIGHT).

Definition lcd_cursor_on : M unit :=
  dc <- gets display_control ;;
  modify (set_display_control (u8 (Z.lor dc LCD_CURSORON))) ;;
  dc <- gets display_control ;;
  lcd_command (u8 (Z.lor LCD_DISPLAYCONTROL dc)).

Definition lcd_cursor_off : M unit :=
  dc <- gets display_control ;;
  modify (set_display_control (u8 (Z.land dc (Z.lnot LCD_CURSORON)))) ;;
  dc <- gets display_control ;;
  lcd_command (u8 (Z.lor LCD_DISPLAYCONTROL dc)).

Definition lcd_blink_on : M unit :=
  dc <- gets display_control ;;
  modify (set_display_control (u8 (Z.lor dc LCD_BLINKON))) ;;
  dc <- gets display_control ;;
  lcd_command (u8 (Z.lor LCD_DISPLAYCONTROL dc)).

Definition lcd_blink_off : M unit :=
  dc <- gets display_control ;;
  modify (set_display_control (u8 (Z.land dc (Z.lnot LCD_BLINKON)))) ;;
  dc <- gets display_control ;;
  lcd_command (u8 (Z.lor LCD_DISPLAYCONTROL dc)).

Definition lcd_autoscroll_on : M unit :=
  dm <- gets display_mode ;;
  modify (set_display_mode (u8 (Z.lor dm LCD_ENTRYSHIFTINCREMENT))) ;;
  dm <- gets display_mode ;;
  lcd_command (u8 (Z.lor LCD_ENTRYMODESET dm)).

Definition lcd_autoscroll_off : M unit :=
  dm <- gets display_mode ;;
  modify (set_display_mode (u8 (Z.land dm (Z.lnot LCD_ENTRYSHIFTINCREMENT)))) ;;
  dm <- gets display_mode ;;
  lcd_command (u8 (Z.lor LCD_ENTRYMODESET dm)).

Definition lcd_right_to_left : M unit :=
  dm <- gets display_mode ;;
  modify (set_display_mode (u8 (Z.land dm (Z.lnot LCD_ENTRYLEFT)))) ;;
  dm <- gets display_mode ;;
  lcd_command (u8 (Z.lor LCD_ENTRYMODESET dm)).

Definition lcd_left_to_right : M unit :=
  dm <- gets display_mode ;;
  modify (set_display_mode (u8 (Z.lor dm LCD_ENTRYLEFT))) ;;
  dm <- gets display_mode ;;
  lcd_command (u8 (Z.lor LCD_ENTRYMODESET dm)).

Definition lcd_init (rs en dat4 dat5 dat6 dat7 : Z) : M unit :=
  modify (set_pins rs en dat4 dat5 dat6 dat7) ;;
  modify (set_display_function
            (u8 (Z.lor (Z.lor LCD_4BITMODE LCD_2LINE) LCD_5x8DOTS))) ;;
  delay_ms 50 ;;
  p <- gets rs_pin ;; pin_write p 0 ;;
  lcd_write_data 0x03 ;;
  delay_ms 5 ;;
  lcd_write_data 0x03 ;;
  delay_ms 5 ;;
  lcd_write_data 0x03 ;;
  delay_us 150 ;;
  lcd_write_data 0x02 ;;
  df <- gets display_function ;;
  lcd_command (u8 (Z.lor LCD_FUNCTIONSET df)) ;;
  modify (set_display_control
            (u8 (Z.lor (Z.lor LCD_DISPLAYON LCD_CURSOROFF) LCD_BLINKOFF))) ;;
  lcd_display_on ;;
  lcd_clear ;;
  modify (set_display_mode (u8 (Z.lor LCD_ENTRYLEFT LCD_ENTRYSHIFTDECREMENT))) ;;
  dm <- gets display_mode ;;
  lcd_command (u8 (Z.lor LCD_ENTRYMODESET dm)).

(** [lcd_set_cursor] with the macro [NUM_LINES] as a parameter.  [row] is a
    [uint8_t], so both clamping assignments convert to that type; the
    command argument is converted to [uint8_t] at the call. *)
Definition lcd_set_cursor_lines (num_lines : Z) (col row : Z) : M unit :=
  let max_lines := Z.of_nat (List.length row_offsets) in
  let row := if max_lines <=? row then u8 (max_lines - 1) else row in
  let row := if num_lines <=? row then u8 (num_lines - 1) else row in
  match nth_error row_offsets (Z.to_nat row) with
  | Some offset => lcd_command (u8 (Z.lor LCD_SETDDRAMADDR (col + offset)))
  | None => undefined
  end.

(** The function as compiled: [NUM_LINES] is 2 in lcd_16x2.h. *)
Definition lcd_set_cursor (col row : Z) : M unit :=
  lcd_set_cursor_lines NUM_LINES col row.

Definition lcd_write_char (data : Z) : M unit := lcd_write (u8 data).

(** [str] is the memory contents from the pointer onwards; the loop reads
    it up to the first zero byte, and reading past the end is undefined. *)
Fixpoint lcd_write_string (str : list Z) : M unit :=
  match str with
  | [] => undefined
  | c :: rest =>
      if c_true c
      then lcd_write_char c ;; lcd_write_string rest
      else ret tt
  end.

(** The characters [sprintf(str, "%d", num)] produces: [num] is read back
    as a 32-bit [int] and printed in decimal. *)
Definition as_int32 (num : Z) : Z :=
  if num <? 2 ^ 31 then num else num - 2 ^ 32.

Definition sprintf_d (num : Z) : list Z :=
  map (fun c => Z.of_N (N_of_ascii c))
      (list_ascii_of_string (NilZero.string_of_int (Z.to_int (as_int32 num)))).

(** Formatting into [char str[10]]: [sprintf] stores the text and a
    terminating zero; more than 10 bytes overrun the array. *)
Definition into_str10 (text : list Z) : M (list Z) :=
  if (Z.of_nat (List.length text) + 1 <=? 10)
  then ret (text ++ [0])
  else undefined.

Definition lcd_write_int (num : Z) : M unit :=
  str <- into_str10 (sprintf_d num) ;;
  lcd_write_string str.

Section FloatText.
(** The C type [float] and the text [sprintf(str, "%.4f", num)] produces
    are left abstract. *)
Variable c_float : Type.
Variable sprintf_4f : c_float -> list Z.

Definition lcd_write_float (num : c_float) : M unit :=
  str <- into_str10 (sprintf_4f num) ;;
  lcd_write_string str.

(** The public operations of lcd_16x2.h, one constructor per function. *)
Inductive op : Type :=
| Init (rs en dat4 dat5 dat6 dat7 : Z)
| DisplayOff | DisplayOn
| Clear | Home
| ShiftLeft | ShiftRight
| CursorOn | CursorOff
| BlinkOn | BlinkOff
| AutoscrollOn | AutoscrollOff
| RightToLeft | LeftToRight
| SetCursor (col row : Z)
| WriteChar (data : Z)
| WriteString (str : list Z)
| WriteInt (num : Z)
| WriteFloat (num : c_float).

Definition call (o : op) : M unit :=
  match o with
  | Init rs en d4 d5 d6 d7 => lcd_init rs en d4 d5 d6 d7
  | DisplayOff => lcd_display_off
  | DisplayOn => lcd_display_on
  | Clear => lcd_clear
  | Home => lcd_home
  | ShiftLeft => lcd_shift_left
  | ShiftRight => lcd_shift_right
  | CursorOn => lcd_cursor_on
  | CursorOff => lcd_cursor_off
  | BlinkOn => lcd_blink_on
  | BlinkOff => lcd_blink_off
  | AutoscrollOn => lcd_autoscroll_on
  | AutoscrollOff => lcd_autoscroll_off
  | RightToLeft => lcd_right_to_left
  | LeftToRight => lcd_left_to_right
  | SetCursor col row => lcd_set_cursor col row
  | WriteChar data => lcd_write_char data
  | WriteString str => lcd_write_string str
  | WriteInt num => lcd_write_int num
  | WriteFloat num => lcd_write_float num
  end.

(** A program: public operations called one after the other. *)
Fixpoint run (ops : list op) : M unit :=
  match ops with
  | [] => ret tt
  | o :: rest => call o ;; run rest
  end.
End FloatText.

Arguments Init {c_float}.
Arguments DisplayOff {c_float}.
Arguments DisplayOn {c_float}.
Arguments Clear {c_float}.
Arguments Home {c_float}.
Arguments ShiftLeft {c_float}.
Arguments ShiftRight {c_float}.
Arguments CursorOn {c_float}.
Arguments CursorOff {c_float}.
Arguments BlinkOn {c_float}.
Arguments BlinkOff {c_float}.
Arguments AutoscrollOn {c_float}.
Arguments AutoscrollOff {c_float}.
Arguments RightToLeft {c_float}.
Arguments LeftToRight {c_float}.
Arguments SetCursor {c_float}.
Arguments WriteChar {c_float}.
Arguments WriteString {c_float}.
Arguments WriteInt {c_float}.
Arguments WriteFloat {c_float}.
Arguments lcd_write_float {c_float}.
Arguments call {c_float}.
Arguments run {c_float}.

(** ** Observations on traces *)

(** Level a data line takes for bit [k] of a nibble. *)
Definition bit_level (n : Z) (k : Z) : Z := if Z.testbit n k then 1 else 0.

(** The pulse on the enable line that closes every nibble transmission. *)
Definition pulse_events (s : lcd) : trace :=
  [PinWrite (en_pin s) 0; DelayUs 1;
   PinWrite (en_pin s) 1; DelayUs 1;
   PinWrite (en_pin s) 0; DelayUs 100].

(** The four data-line levels that present the nibble [n]. *)
Definition data_events (s : lcd) (n : Z) : trace :=
  [PinWrite (dat4_pin s) (bit_level n 0);
   PinWrite (dat5_pin s) (bit_level n 1);
   PinWrite (dat6_pin s) (bit_level n 2);
   PinWrite (dat7_pin s) (bit_level n 3)].

(** One nibble transmission: the nibble on the data lines, then the pulse. *)
Definition nibble_events (s : lcd) (n : Z) : trace :=
  data_events s n ++ pulse_events s.

(** One byte transfer: register select, high nibble, low nibble. *)
Definition send_events (s : lcd) (value mode : Z) : trace :=
  PinWrite (rs_pin s) mode
  :: nibble_events s (Z.land (Z.shiftr value 4) 0xF)
  ++ nibble_events s (Z.land value 0xF).

(** The power-on sequence, over the pins of [s]. *)
Definition init_events (s : lcd) : trace :=
  [DelayMs 50]
  ++ [PinWrite (rs_pin s) 0]
  ++ nibble_events s 0x03 ++ [DelayMs 5]
  ++ nibble_events s 0x03 ++ [DelayMs 5]
  ++ nibble_events s 0x03 ++ [DelayUs 150]
  ++ nibble_events s 0x02
  ++ send_events s 0x28 0
  ++ send_events s 0x0C 0
  ++ send_events s 0x01 0 ++ [DelayMs 2]
  ++ send_events s 0x06 0.

(** Requested length of a wait, in microseconds (0 for a pin write). *)
Definition wait_us (e : event) : Z :=
  match e with
  | PinWrite _ _ => 0
  | DelayUs n => n
  | DelayMs n => 1000 * n
  end.

(** Electrical view: the level of every pin after a trace has been played,
    starting from the levels [lv]. *)
Definition drive (lv : Z -> Z) (e : event) : Z -> Z :=
  match e with
  | PinWrite p v => fun q => if q =? p then v else lv q
  | _ => lv
  end.

Definition levels_after (lv : Z -> Z) (t : trace) : Z -> Z :=
  fold_left drive t lv.

(** Whether an event drives pin [q]. *)
Definition touches (q : Z) (e : event) : bool :=
  match e with
  | PinWrite p _ => p =? q
  | _ => false
  end.

(** The register-select line is wired to a pin of its own. *)
Definition rs_apart (s : lcd) : Prop :=
  rs_pin s <> en_pin s /\ rs_pin s <> dat4_pin s /\ rs_pin s <> dat5_pin s
  /\ rs_pin s <> dat6_pin s /\ rs_pin s <> dat7_pin s.

(** *** A bus monitor

    Reads byte transfers back from a trace by their shape alone: a pin
    write (register select) followed by two nibble transmissions, each of
    them four pin writes and a low-high-low pulse. *)

(** The nibble a set of four data-line levels stands for. *)
Definition nibble_value (n : Z) : Z :=
  bit_level n 0 + 2 * bit_level n 1 + 4 * bit_level n 2 + 8 * bit_level n 3.

Definition parse_nibble (t : trace) : option (Z * trace) :=
  match t with
  | PinWrite _ b0 :: PinWrite _ b1 :: PinWrite _ b2 :: PinWrite _ b3
    :: PinWrite _ e0 :: DelayUs _ :: PinWrite _ e1 :: DelayUs _
    :: PinWrite _ e2 :: DelayUs _ :: rest =>
      if (e0 =? 0) && (e1 =? 1) && (e2 =? 0)
      then Some (b0 + 2 * b1 + 4 * b2 + 8 * b3, rest)
      else None
  | _ => None
  end.

(** A recognised transfer, as (register select, byte). *)
Definition parse_send (t : trace) : option (Z * Z) :=
  match t with
  | PinWrite _ mode :: t1 =>
      match parse_nibble t1 with
      | Some (hi, t2) =>
          match parse_nibble t2 with
          | Some (lo, _) => Some (mode, 16 * hi + lo)
          | None => None
          end
      | None => None
      end
  | _ => None
  end.

(** [skip] counts the events of the transfer just recognised that are
    still to be passed over (20 after its first event). *)
Fixpoint monitor_from (skip : nat) (t : trace) : list (Z * Z) :=
  match t with
  | [] => []
  | _ :: rest =>
      match skip with
      | S k => monitor_from k rest
      | O =>
          match parse_send t with
          | Some x => x :: monitor_from 20 rest
          | None => monitor_from 0 rest
          end
      end
  end.

Definition bus_monitor (t : trace) : list (Z * Z) := monitor_from 0 t.

(** Instruction decoding of the controller: a command byte is identified
    by its highest set bit, the bits below are its payload. *)
Definition is_display_control (b : Z) : bool :=
  (LCD_DISPLAYCONTROL <=? b) && (b <? LCD_CURSORSHIFT).
Definition is_entry_mode_set (b : Z) : bool :=
  (LCD_ENTRYMODESET <=? b) && (b <? LCD_DISPLAYCONTROL).
Definition is_function_set (b : Z) : bool :=
  (LCD_FUNCTIONSET <=? b) && (b <? LCD_SETCGRAMADDR).
Definition is_set_ddram_addr (b : Z) : bool :=
  (LCD_SETDDRAMADDR <=? b) && (b <? 256).

(** Last command byte (register select 0) of a given kind in a log. *)
Fixpoint last_command (kind : Z -> bool) (log : list (Z * Z)) : option Z :=
  match log with
  | [] => None
  | (mode, b) :: rest =>
      match last_command kind rest with
      | Some b' => Some b'
      | None => if (mode =? 0) && kind b then Some b else None
      end
  end.

(** Payload of a command byte: the bits below the bit that names it. *)
Definition payload (cmd b : Z) : Z := Z.land b (cmd - 1).

(** The state bytes mirror the controller: [display_control] is the
    payload of the last Display-Control command on the bus, and
    [display_mode] the payload of the last Entry-Mode-Set command. *)
Definition mirrors (s : lcd) (log : list (Z * Z)) : Prop :=
  option_map (payload LCD_DISPLAYCONTROL)
             (last_command is_display_control log)
    = Some (display_control s)
  /\ option_map (payload LCD_ENTRYMODESET)
                (last_command is_entry_mode_set log)
    = Some (display_mode s).

(** The state bytes hold flag bits only: three for [display_control],
    two for [display_mode]. *)
Definition flags_only (s : lcd) : Prop :=
  0 <= display_control s < 8 /\ 0 <= display_mode s < 4.

(** The characters of a C string: the bytes before the first zero byte of
    [mem], if there is one. *)
Fixpoint c_string (mem : list Z) : option (list Z) :=
  match mem with
  | [] => None
  | c :: rest =>
      if c =? 0 then Some [] else option_map (cons c) (c_string rest)
  end.

(** Operations that rewrite [display_control], resp. [display_mode]. *)
Definition toggles_control {F} (o : op F) : bool :=
  match o with
  | DisplayOff | DisplayOn | CursorOn | CursorOff | BlinkOn | BlinkOff => true
  | _ => false
  end.

Definition toggles_mode {F} (o : op F) : bool :=
  match o with
  | AutoscrollOn | AutoscrollOff | RightToLeft | LeftToRight => true
  | _ => false
  end.

Definition is_init {F} (o : op F) : bool :=
  match o with
  | Init _ _ _ _ _ _ => true
  | _ => false
  end.

(** The eight on/off operations. *)
Definition on_off_toggle {F} (o : op F) : bool :=
  match o with
  | DisplayOff | DisplayOn | CursorOn | CursorOff
  | BlinkOn | BlinkOff | AutoscrollOn | AutoscrollOff => true
  | _ => false
  end.

(** Operations that assign to a driver variable: [lcd_init] and the ten
    operations that switch a flag. *)
Definition writes_state {F} (o : op F) : bool :=
  is_init o || toggles_control o || toggles_mode o.

(** The nine other operations. *)
Definition keeps_state {F} (o : op F) : bool :=
  match o with
  | Clear | Home | ShiftLeft | ShiftRight | SetCursor _ _
  | WriteChar _ | WriteString _ | WriteInt _ | WriteFloat _ => true
  | _ => false
  end.

(** The memory an operation reads or writes stays inside its arrays: the
    string has its terminating zero, the formatted number fits the
    10-byte buffer together with its terminating zero. *)
Definition in_bounds {F} (fmt : F -> list Z) (o : op F) : Prop :=
  match o with
  | WriteString str => c_string str <> None
  | WriteInt num => (List.length (sprintf_d num) < 10)%nat
  | WriteFloat num => (List.length (fmt num) < 10)%nat
  | _ => True
  end.

(** Invariant behind [mirrors]: the last command bytes of the two kinds
    are the command bit plus the state byte, and the state bytes hold flag
    bits only. *)
Definition synced (s : lcd) (log : list (Z * Z)) : Prop :=
  last_command is_display_control log
    = Some (LCD_DISPLAYCONTROL + display_control s)
  /\ last_command is_entry_mode_set log
    = Some (LCD_ENTRYMODESET + display_mode s)
  /\ flags_only s.

(** ** Further observations: the flag operations *)

(** The two state bytes that hold flags. *)
Inductive flag_reg : Type := Control | Mode.

(** Register, mask and direction of each flag operation, as written in its
    body: [display_control |= MASK] or [display_control &= ~MASK], and the
    same on [display_mode]. *)
Definition flag_of {F} (o : op F) : option (flag_reg * Z * bool) :=
  match o with
  | DisplayOff => Some (Control, LCD_DISPLAYON, false)
  | DisplayOn => Some (Control, LCD_DISPLAYON, true)
  | CursorOn => Some (Control, LCD_CURSORON, true)
  | CursorOff => Some (Control, LCD_CURSORON, false)
  | BlinkOn => Some (Control, LCD_BLINKON, true)
  | BlinkOff => Some (Control, LCD_BLINKON, false)
  | AutoscrollOn => Some (Mode, LCD_ENTRYSHIFTINCREMENT, true)
  | AutoscrollOff => Some (Mode, LCD_ENTRYSHIFTINCREMENT, false)
  | RightToLeft => Some (Mode, LCD_ENTRYLEFT, false)
  | LeftToRight => Some (Mode, LCD_ENTRYLEFT, true)
  | _ => None
  end.

Definition flag_byte (r : flag_reg) (s : lcd) : Z :=
  match r with
  | Control => display_control s
  | Mode => display_mode s
  end.

(** [x |= mask] or [x &= ~mask] on a [uint8_t]. *)
Definition flip (mask : Z) (on : bool) (x : Z) : Z :=
  u8 (if on then Z.lor x mask else Z.land x (Z.lnot mask)).

Definition apply_flag (r : flag_reg) (mask : Z) (on : bool) (s : lcd) : lcd :=
  match r with
  | Control => set_display_control (flip mask on (display_control s)) s
  | Mode => set_display_mode (flip mask on (display_mode s)) s
  end.

(** The command byte that carries a flag register. *)
Definition flag_command (r : flag_reg) (s : lcd) : Z :=
  match r with
  | Control => u8 (Z.lor LCD_DISPLAYCONTROL (display_control s))
  | Mode => u8 (Z.lor LCD_ENTRYMODESET (display_mode s))
  end.

(** ** Further observations: what the controller latches *)

(** The six pin numbers of the driver. *)
Definition pins (s : lcd) : list Z :=
  [rs_pin s; en_pin s; dat4_pin s; dat5_pin s; dat6_pin s; dat7_pin s].

(** Every line has a pin of its own. *)
Definition wired (s : lcd) : Prop := NoDup (pins s).

(** The nibble on the four data lines, data 4 least significant. *)
Definition data_bus (s : lcd) (lv : Z -> Z) : Z :=
  lv (dat4_pin s) + 2 * lv (dat5_pin s)
  + 4 * lv (dat6_pin s) + 8 * lv (dat7_pin s).

(** The controller takes in the register-select level and the data-line
    nibble whenever the enable line falls from high to low.  One event:
    new levels, and the list of what was taken in so far. *)
Definition latch_step (s : lcd) (st : (Z -> Z) * list (Z * Z)) (e : event)
  : (Z -> Z) * list (Z * Z) :=
  let lv := fst st in
  let lv' := drive lv e in
  if c_true (lv (en_pin s)) && (lv' (en_pin s) =? 0)
  then (lv', snd st ++ [(lv' (rs_pin s), data_bus s lv')])
  else (lv', snd st).

Definition latched (s : lcd) (lv : Z -> Z) (t : trace) : list (Z * Z) :=
  snd (fold_left (latch_step s) t (lv, [])).

(** The two nibbles of each byte of a bus log, high nibble first. *)
Definition nibbles_of (log : list (Z * Z)) : list (Z * Z) :=
  flat_map (fun x => [(fst x, snd x / 16); (fst x, snd x mod 16)]) log.

(** Traces made of byte transfers to register 0 or 1 and 2 ms settle
    waits. *)
Inductive framed (s : lcd) : trace -> Prop :=
| framed_nil : framed s []
| framed_send (v m : Z) (t : trace) :
    m = 0 \/ m = 1 -> framed s t -> framed s (send_events s v m ++ t)
| framed_settle (t : trace) : framed s t -> framed s (DelayMs 2 :: t).



(** A pin write goes to one of the six pins and drives it to 0 or 1. *)
Definition tidy_event (s : lcd) (e : event) : Prop :=
  match e with
  | PinWrite p v => In p (pins s) /\ (v = 0 \/ v = 1)
  | _ => True
  end.

(** ** Further observations: the bytes on the bus *)

(** The transfers the driver's source can produce: to the instruction
    register, Clear-Display, Return-Home, Entry-Mode-Set, Display-Control,
    the two display shifts, Function-Set for 4 bits and 2 lines, and
    Set-DDRAM-Address; to the data register, any byte. *)
Definition allowed_transfer (x : Z * Z) : bool :=
  let (mode, b) := x in
  if mode =? 0
  then (b =? LCD_CLEARDISPLAY) || (b =? LCD_RETURNHOME)
       || is_entry_mode_set b || is_display_control b
       || (b =? 0x18) || (b =? 0x1C) || (b =? 0x28)
       || is_set_ddram_addr b
  else (mode =? 1) && (0 <=? b) && (b <? 256).

(** The text a list of character bytes spells, and the number it denotes
    when read as a decimal numeral with an optional minus sign. *)
Definition text_of_bytes (bs : list Z) : string :=
  string_of_list_ascii (map (fun b => ascii_of_N (Z.to_N b)) bs).

Definition decimal_value (bs : list Z) : option Z :=
  option_map Z.of_int (NilZero.int_of_string (text_of_bytes bs)).

(** * Proofs *)

(** ** Running the monad *)

Lemma result_inv {A} (a1 a2 : A) (s1 s2 : lcd) (t1 t2 : trace) :
  Some (a1, s1, t1) = Some (a2, s2, t2) -> a2 = a1 /\ s2 = s1 /\ t2 = t1.
Proof. intros H. inversion H. auto. Qed.

Lemma bind_inv {A B} (m : M A) (k : A -> M B) s b s2 t :
  bind m k s = Some (b, s2, t) ->
  exists a s1 t1 t2,
    m s = Some (a, s1, t1) /\ k a s1 = Some (b, s2, t2) /\ t = t1 ++ t2.
Proof.
  unfold bind. destruct (m s) as [[[a s1] t1]|] eqn:Hm; [|discriminate].
  destruct (k a s1) as [[[b' s2'] t2]|] eqn:Hk; [|discriminate].
  intros H. inversion H; subst. exists a, s1, t1, t2.
  repeat split; assumption || reflexivity.
Qed.

(** ** Bits *)

Lemma land_pow2 (x k : Z) :
  0 <= k -> Z.land x (2 ^ k) = if Z.testbit x k then 2 ^ k else 0.
Proof.
  intros Hk. apply Z.bits_inj'. intros n Hn. rewrite Z.land_spec.
  destruct (Z.testbit x k) eqn:Hb.
  - rewrite Z.pow2_bits_eqb by lia.
    destruct (Z.eqb_spec k n) as [->|_].
    + rewrite Hb. reflexivity.
    + apply andb_false_r.
  - rewrite Z.bits_0, Z.pow2_bits_eqb by lia.
    destruct (Z.eqb_spec k n) as [->|_].
    + rewrite Hb. reflexivity.
    + apply andb_false_r.
Qed.

Lemma c_true_land_pow2 (x k : Z) :
  0 <= k -> c_true (Z.land x (2 ^ k)) = Z.testbit x k.
Proof.
  intros Hk. unfold c_true. rewrite land_pow2 by exact Hk.
  destruct (Z.testbit x k); [|reflexivity].
  assert (0 < 2 ^ k) by (apply Z.pow_pos_nonneg; lia).
  destruct (Z.eqb_spec (2 ^ k) 0); [lia | reflexivity].
Qed.

Lemma bit_level_u8 (x k : Z) :
  0 <= k < 8 -> bit_level (u8 x) k = bit_level x k.
Proof.
  intros Hk. unfold bit_level, u8. change 256 with (2 ^ 8).
  rewrite Z.mod_pow2_bits_low by lia. reflexivity.
Qed.

Lemma bit_level_low4 (x k : Z) :
  0 <= k < 4 -> bit_level (Z.land x 0xF) k = bit_level x k.
Proof.
  intros Hk. unfold bit_level. rewrite Z.land_spec.
  change 0xF with (Z.ones 4). rewrite Z.ones_spec_low by lia.
  rewrite andb_true_r. reflexivity.
Qed.

Lemma data_events_u8 s x : data_events s (u8 x) = data_events s x.
Proof.
  unfold data_events. rewrite !bit_level_u8 by lia. reflexivity.
Qed.

Lemma data_events_low4 s x : data_events s (Z.land x 0xF) = data_events s x.
Proof.
  unfold data_events. rewrite !bit_level_low4 by lia. reflexivity.
Qed.

(** ** Transmission layer *)

Lemma enable_pulse_eq s : enable_pulse s = Some (tt, s, pulse_events s).
Proof. reflexivity. Qed.

Lemma lcd_write_data_eq data s :
  lcd_write_data data s = Some (tt, s, nibble_events s data).
Proof.
  unfold lcd_write_data.
  pose proof (c_true_land_pow2 data 0) as H0.
  pose proof (c_true_land_pow2 data 1) as H1.
  pose proof (c_true_land_pow2 data 2) as H2.
  pose proof (c_true_land_pow2 data 3) as H3.
  change (2 ^ 0) with 1 in H0. change (2 ^ 1) with 2 in H1.
  change (2 ^ 2) with 4 in H2. change (2 ^ 3) with 8 in H3.
  rewrite H0, H1, H2, H3 by lia.
  unfold nibble_events, data_events, bit_level.
  destruct (Z.testbit data 0), (Z.testbit data 1),
    (Z.testbit data 2), (Z.testbit data 3); reflexivity.
Qed.

Lemma lcd_send_eq value mode s :
  lcd_send value mode s = Some (tt, s, send_events s value mode).
Proof.
  unfold lcd_send, send_events, nibble_events.
  rewrite !data_events_low4, <- (data_events_u8 s (Z.shiftr value 4)).
  unfold bind at 1 2 3. cbn [gets pin_write emit].
  rewrite !lcd_write_data_eq. reflexivity.
Qed.

(** The letter H (0x48) sent to the data register over pins 1..6: high
    nibble 0100, then low nibble 1000, least significant bit on data 4. *)
Example lcd_send_letter_H :
  lcd_send 0x48 1 (mkLcd 1 2 3 4 5 6 0 0 0)
  = Some (tt, mkLcd 1 2 3 4 5 6 0 0 0,
          [PinWrite 1 1;
           PinWrite 3 0; PinWrite 4 0; PinWrite 5 1; PinWrite 6 0;
           PinWrite 2 0; DelayUs 1; PinWrite 2 1; DelayUs 1;
           PinWrite 2 0; DelayUs 100;
           PinWrite 3 0; PinWrite 4 0; PinWrite 5 0; PinWrite 6 1;
           PinWrite 2 0; DelayUs 1; PinWrite 2 1; DelayUs 1;
           PinWrite 2 0; DelayUs 100]).
Proof. reflexivity. Qed.

Lemma lcd_command_eq cmd s :
  lcd_command cmd s = Some (tt, s, send_events s cmd 0).
Proof. apply lcd_send_eq. Qed.

Lemma lcd_write_eq value s :
  lcd_write value s = Some (tt, s, send_events s value 1).
Proof. apply lcd_send_eq. Qed.

(** ** Pin levels *)

Lemma levels_after_untouched q t :
  forallb (fun e => negb (touches q e)) t = true ->
  forall lv, levels_after lv t q = lv q.
Proof.
  unfold levels_after. induction t as [|e t IH]; intros Hq lv; [reflexivity|].
  cbn [forallb] in Hq. apply andb_true_iff in Hq as [He Ht].
  cbn [fold_left]. rewrite IH by assumption.
  destruct e as [p v| |]; cbn [drive]; try reflexivity.
  cbn [touches] in He. rewrite Z.eqb_sym.
  destruct (p =? q); [discriminate | reflexivity].
Qed.

Lemma forallb_firstn {A} (f : A -> bool) k l :
  forallb f l = true -> forallb f (firstn k l) = true.
Proof.
  revert l. induction k as [|k IH]; intros [|a l] H; try reflexivity.
  cbn [forallb] in H. apply andb_true_iff in H as [Ha Hl].
  cbn [firstn forallb]. rewrite Ha, IH by assumption. reflexivity.
Qed.

Lemma nibble_events_untouched s n q :
  q <> en_pin s -> q <> dat4_pin s -> q <> dat5_pin s ->
  q <> dat6_pin s -> q <> dat7_pin s ->
  forallb (fun e => negb (touches q e)) (nibble_events s n) = true.
Proof.
  intros He H4 H5 H6 H7. cbn [nibble_events data_events pulse_events app forallb touches].
  repeat match goal with
         | |- context [?a =? q] =>
             destruct (Z.eqb_spec a q); [congruence|]
         end.
  reflexivity.
Qed.

(** ** C1: a byte goes out as two nibbles, high first *)

(** C1.  [lcd_send v m] leaves the driver state alone and emits exactly:
    one write of [m] to the register-select pin, then the nibble
    transmission of [(v >> 4) & 0xF], then the nibble transmission of
    [v & 0xF] (each nibble on the four data pins, bit k on data line 4+k).
    Nothing in the two transmissions addresses the register-select line:
    when that line has a pin of its own, its level is [m] after the first
    event and after every later event of the transfer. *)
Theorem lcd_send_two_nibbles (v m : Z) (s : lcd) :
  let t := [PinWrite (rs_pin s) m]
           ++ nibble_events s (Z.land (Z.shiftr v 4) 0xF)
           ++ nibble_events s (Z.land v 0xF) in
  lcd_send v m s = Some (tt, s, t)
  /\ List.length t = 21%nat
  /\ (rs_apart s ->
      forall (lv : Z -> Z) (k : nat),
        (1 <= k)%nat ->
        levels_after lv (firstn k t) (rs_pin s) = m).
Proof.
  intros t. split; [apply lcd_send_eq|]. split; [reflexivity|].
  intros (He & H4 & H5 & H6 & H7) lv k Hk.
  destruct k as [|k]; [lia|].
  subst t. cbn [app]. rewrite firstn_cons.
  unfold levels_after. cbn [fold_left].
  fold (levels_after (drive lv (PinWrite (rs_pin s) m))
          (firstn k (nibble_events s (Z.land (Z.shiftr v 4) 0xF)
                     ++ nibble_events s (Z.land v 0xF)))).
  rewrite levels_after_untouched.
  - cbn [drive]. rewrite Z.eqb_refl. reflexivity.
  - apply forallb_firstn. rewrite forallb_app.
    rewrite !nibble_events_untouched by assumption. reflexivity.
Qed.

(** Instance of C1: the byte 0xA5 sent to the data register over pins
    1..6, where the register-select line is pin 1. *)
Lemma lcd_send_two_nibbles_witness :
  let s := mkLcd 1 2 3 4 5 6 0 0 0 in
  rs_apart s
  /\ lcd_send 0xA5 1 s
     = Some (tt, s,
             [PinWrite 1 1]
             ++ nibble_events s 0xA ++ nibble_events s 0x5)
  /\ forall (lv : Z -> Z) (k : nat),
       (1 <= k)%nat ->
       levels_after lv
         (firstn k ([PinWrite 1 1]
                    ++ nibble_events s 0xA ++ nibble_events s 0x5)) 1 = 1.
Proof.
  intros s.
  assert (Hs : rs_apart s) by (repeat split; discriminate).
  split; [exact Hs|].
  pose proof (lcd_send_two_nibbles 0xA5 1 s) as (H1 & _ & H2).
  split; [exact H1 | exact (H2 Hs)].
Defined.

(** ** C3: the enable pulse *)

(** C3.  Every call of [lcd_write_data] sets the four data pins and then
    ends with the pulse on the enable pin: low, wait, high, wait, low,
    wait, where the three waits last at least 1, 1 and 100 microseconds. *)
Theorem lcd_write_data_ends_with_pulse (data : Z) (s : lcd) :
  lcd_write_data data s
  = Some (tt, s,
          [PinWrite (dat4_pin s) (bit_level data 0);
           PinWrite (dat5_pin s) (bit_level data 1);
           PinWrite (dat6_pin s) (bit_level data 2);
           PinWrite (dat7_pin s) (bit_level data 3)]
          ++ [PinWrite (en_pin s) 0; DelayUs 1;
              PinWrite (en_pin s) 1; DelayUs 1;
              PinWrite (en_pin s) 0; DelayUs 100])
  /\ map wait_us (pulse_events s) = [0; 1; 0; 1; 0; 100]
  /\ 1 <= wait_us (DelayUs 1) /\ 100 <= wait_us (DelayUs 100).
Proof.
  split; [apply lcd_write_data_eq|].
  cbn [wait_us]. repeat split; reflexivity || lia.
Qed.

(** ** Feature API: what each operation does *)

Ltac run_toggle :=
  unfold bind; cbn [gets modify]; rewrite lcd_command_eq; reflexivity.

Lemma lcd_display_off_eq s :
  lcd_display_off s
  = let s' := set_display_control
                (u8 (Z.land (display_control s) (Z.lnot LCD_DISPLAYON))) s in
    Some (tt, s',
          send_events s' (u8 (Z.lor LCD_DISPLAYCONTROL (display_control s'))) 0).
Proof. unfold lcd_display_off. run_toggle. Qed.

Lemma lcd_display_on_eq s :
  lcd_display_on s
  = let s' := set_display_control
                (u8 (Z.lor (display_control s) LCD_DISPLAYON)) s in
    Some (tt, s',
          send_events s' (u8 (Z.lor LCD_DISPLAYCONTROL (display_control s'))) 0).
Proof. unfold lcd_display_on. run_toggle. Qed.

Lemma lcd_cursor_on_eq s :
  lcd_cursor_on s
  = let s' := set_display_control
                (u8 (Z.lor (display_control s) LCD_CURSORON)) s in
    Some (tt, s',
          send_events s' (u8 (Z.lor LCD_DISPLAYCONTROL (display_control s'))) 0).
Proof. unfold lcd_cursor_on. run_toggle. Qed.

Lemma lcd_cursor_off_eq s :
  lcd_cursor_off s
  = let s' := set_display_control
                (u8 (Z.land (display_control s) (Z.lnot LCD_CURSORON))) s in
    Some (tt, s',
          send_events s' (u8 (Z.lor LCD_DISPLAYCONTROL (display_control s'))) 0).
Proof. unfold lcd_cursor_off. run_toggle. Qed.

Lemma lcd_blink_on_eq s :
  lcd_blink_on s
  = let s' := set_display_control
                (u8 (Z.lor (display_control s) LCD_BLINKON)) s in
    Some (tt, s',
          send_events s' (u8 (Z.lor LCD_DISPLAYCONTROL (display_control s'))) 0).
Proof. unfold lcd_blink_on. run_toggle. Qed.

Lemma lcd_blink_off_eq s :
  lcd_blink_off s
  = let s' := set_display_control
                (u8 (Z.land (display_control s) (Z.lnot LCD_BLINKON))) s in
    Some (tt, s',
          send_events s' (u8 (Z.lor LCD_DISPLAYCONTROL (display_control s'))) 0).
Proof. unfold lcd_blink_off. run_toggle. Qed.

Lemma lcd_autoscroll_on_eq s :
  lcd_autoscroll_on s
  = let s' := set_display_mode
                (u8 (Z.lor (display_mode s) LCD_ENTRYSHIFTINCREMENT)) s in
    Some (tt, s',
          send_events s' (u8 (Z.lor LCD_ENTRYMODESET (display_mode s'))) 0).
Proof. unfold lcd_autoscroll_on. run_toggle. Qed.

Lemma lcd_autoscroll_off_eq s :
  lcd_autoscroll_off s
  = let s' := set_display_mode
                (u8 (Z.land (display_mode s) (Z.lnot LCD_ENTRYSHIFTINCREMENT))) s in
    Some (tt, s',
          send_events s' (u8 (Z.lor LCD_ENTRYMODESET (display_mode s'))) 0).
Proof. unfold lcd_autoscroll_off. run_toggle. Qed.

Lemma lcd_right_to_left_eq s :
  lcd_right_to_left s
  = let s' := set_display_mode
                (u8 (Z.land (display_mode s) (Z.lnot LCD_ENTRYLEFT))) s in
    Some (tt, s',
          send_events s' (u8 (Z.lor LCD_ENTRYMODESET (display_mode s'))) 0).
Proof. unfold lcd_right_to_left. run_toggle. Qed.

Lemma lcd_left_to_right_eq s :
  lcd_left_to_right s
  = let s' := set_display_mode
                (u8 (Z.lor (display_mode s) LCD_ENTRYLEFT)) s in
    Some (tt, s',
          send_events s' (u8 (Z.lor LCD_ENTRYMODESET (display_mode s'))) 0).
Proof. unfold lcd_left_to_right. run_toggle. Qed.

Lemma lcd_clear_eq s :
  lcd_clear s = Some (tt, s, send_events s LCD_CLEARDISPLAY 0 ++ [DelayMs 2]).
Proof.
  unfold lcd_clear, bind. rewrite lcd_command_eq. reflexivity.
Qed.

Lemma lcd_home_eq s :
  lcd_home s = Some (tt, s, send_events s LCD_RETURNHOME 0 ++ [DelayMs 2]).
Proof.
  unfold lcd_home, bind. rewrite lcd_command_eq. reflexivity.
Qed.

Lemma lcd_shift_left_eq s :
  lcd_shift_left s = Some (tt, s, send_events s 0x18 0).
Proof. apply lcd_command_eq. Qed.

Lemma lcd_shift_right_eq s :
  lcd_shift_right s = Some (tt, s, send_events s 0x1C 0).
Proof. apply lcd_command_eq. Qed.

Lemma lcd_write_char_eq data s :
  lcd_write_char data s = Some (tt, s, send_events s (u8 data) 1).
Proof. apply lcd_write_eq. Qed.

(** ** C9: clear and home *)

(** C9.  [lcd_clear] emits the transfer of the Clear-Display command byte
    0x01 to the instruction register, then one wait of 2 ms, and nothing
    else; [lcd_home] does the same with the Return-Home byte 0x02.  The
    wait is at least 2000 microseconds, and neither changes the state. *)
Theorem lcd_clear_home_settle (s : lcd) :
  lcd_clear s = Some (tt, s, send_events s 0x01 0 ++ [DelayMs 2])
  /\ lcd_home s = Some (tt, s, send_events s 0x02 0 ++ [DelayMs 2])
  /\ LCD_CLEARDISPLAY = 0x01 /\ LCD_RETURNHOME = 0x02
  /\ 2000 <= wait_us (DelayMs 2)
  /\ bus_monitor (send_events s 0x01 0 ++ [DelayMs 2]) = [(0, 0x01)]
  /\ bus_monitor (send_events s 0x02 0 ++ [DelayMs 2]) = [(0, 0x02)].
Proof.
  split; [apply lcd_clear_eq|]. split; [apply lcd_home_eq|].
  cbn [wait_us]. repeat split; reflexivity || lia.
Qed.

(** ** Bytes and bits *)

Lemma u8_range x : 0 <= u8 x < 256.
Proof. unfold u8. apply Z.mod_pos_bound. lia. Qed.

Lemma u8_small x : 0 <= x < 256 -> u8 x = x.
Proof. intros H. unfold u8. apply Z.mod_small. exact H. Qed.

Lemma u8_idem x : u8 (u8 x) = u8 x.
Proof. apply u8_small, u8_range. Qed.

Lemma u8_testbit x n :
  0 <= n -> Z.testbit (u8 x) n = (n <? 8) && Z.testbit x n.
Proof.
  intros Hn. unfold u8. change 256 with (2 ^ 8).
  destruct (Z.ltb_spec n 8).
  - rewrite Z.mod_pow2_bits_low by lia. reflexivity.
  - rewrite Z.mod_pow2_bits_high by lia. reflexivity.
Qed.

Lemma nibble_value_mod16 x : nibble_value x = x mod 16.
Proof.
  assert (Hb : forall k, 0 <= k < 4 -> bit_level x k = bit_level (x mod 16) k).
  { intros k Hk. unfold bit_level. change 16 with (2 ^ 4).
    rewrite Z.mod_pow2_bits_low by lia. reflexivity. }
  unfold nibble_value. rewrite !Hb by lia.
  pose proof (Z.mod_pos_bound x 16 ltac:(lia)) as Hr.
  generalize dependent (x mod 16). intros y _ Hr.
  assert (Hy : y = 0 \/ y = 1 \/ y = 2 \/ y = 3 \/ y = 4 \/ y = 5 \/ y = 6
               \/ y = 7 \/ y = 8 \/ y = 9 \/ y = 10 \/ y = 11 \/ y = 12
               \/ y = 13 \/ y = 14 \/ y = 15) by lia.
  repeat (destruct Hy as [-> | Hy]; [reflexivity|]). subst y. reflexivity.
Qed.

Lemma low4_mod16 x : Z.land x 0xF = x mod 16.
Proof. change 0xF with (Z.ones 4). rewrite Z.land_ones by lia. reflexivity. Qed.

Lemma byte_of_nibbles x :
  16 * nibble_value (Z.land (Z.shiftr x 4) 0xF) + nibble_value (Z.land x 0xF)
  = u8 x.
Proof.
  rewrite !nibble_value_mod16, !low4_mod16, !Z.mod_mod by lia.
  rewrite Z.shiftr_div_pow2 by lia. change (2 ^ 4) with 16.
  unfold u8. change 256 with (16 * 16).
  rewrite Z.rem_mul_r by lia. lia.
Qed.

(** ** The bus monitor reads back what was sent *)

Lemma parse_nibble_events s n rest :
  parse_nibble (nibble_events s n ++ rest) = Some (nibble_value n, rest).
Proof. reflexivity. Qed.

Lemma parse_send_events s v m rest :
  parse_send (send_events s v m ++ rest) = Some (m, u8 v).
Proof.
  unfold send_events. rewrite <- app_comm_cons, <- app_assoc.
  cbn [parse_send]. rewrite !parse_nibble_events, byte_of_nibbles.
  reflexivity.
Qed.

Lemma monitor_from_skip t rest :
  monitor_from (List.length t) (t ++ rest) = monitor_from 0 rest.
Proof.
  induction t as [|e t IH]; [reflexivity|]. cbn [List.length app monitor_from].
  exact IH.
Qed.

Lemma monitor_send s v m rest :
  bus_monitor (send_events s v m ++ rest) = (m, u8 v) :: bus_monitor rest.
Proof.
  unfold bus_monitor.
  pose proof (parse_send_events s v m rest) as Hp.
  remember (send_events s v m) as t eqn:Ht.
  unfold send_events in Ht.
  destruct t as [|e t]; [discriminate|].
  injection Ht as _ Ht.
  cbn [app monitor_from]. cbn [app] in Hp. rewrite Hp. f_equal.
  assert (Hl : List.length t = 20%nat) by (rewrite Ht; reflexivity).
  rewrite <- Hl. apply monitor_from_skip.
Qed.

(** ** C2: the power-on sequence *)

Lemma lcd_init_eq rs en d4 d5 d6 d7 s :
  lcd_init rs en d4 d5 d6 d7 s
  = let s' := mkLcd rs en d4 d5 d6 d7 0x08 0x04 0x02 in
    Some (tt, s', init_events s').
Proof.
  unfold lcd_init, bind.
  cbn [gets modify delay_ms delay_us pin_write emit].
  rewrite !lcd_write_data_eq, lcd_command_eq.
  cbn [gets modify]. rewrite lcd_display_on_eq. cbv beta iota zeta.
  rewrite lcd_clear_eq. cbn [gets modify]. rewrite lcd_command_eq.
  reflexivity.
Qed.

(** C2.  [lcd_init] emits, in this order and with nothing in between but
    the 2 ms settle wait of the clear: a wait of 50 ms; register select
    driven low; the nibble 0x03 and a wait of 5 ms; the nibble 0x03 and a
    wait of 5 ms; the nibble 0x03 and a wait of 150 us; the nibble 0x02;
    the Function-Set byte 0x28; the Display-Control byte 0x0C, whose
    display-on bit is set; the Clear-Display byte 0x01; the Entry-Mode-Set
    byte 0x06.  The waits meet the bounds 50 ms, 4.1 ms, 4.1 ms, 100 us. *)
Theorem lcd_init_sequence (rs en d4 d5 d6 d7 : Z) (s : lcd) :
  let s' := mkLcd rs en d4 d5 d6 d7 0x08 0x04 0x02 in
  lcd_init rs en d4 d5 d6 d7 s
  = Some (tt, s',
          [DelayMs 50]
          ++ [PinWrite rs 0]
          ++ nibble_events s' 0x03 ++ [DelayMs 5]
          ++ nibble_events s' 0x03 ++ [DelayMs 5]
          ++ nibble_events s' 0x03 ++ [DelayUs 150]
          ++ nibble_events s' 0x02
          ++ send_events s' 0x28 0
          ++ send_events s' 0x0C 0
          ++ send_events s' 0x01 0 ++ [DelayMs 2]
          ++ send_events s' 0x06 0)
  /\ 50000 <= wait_us (DelayMs 50)
  /\ 4100 <= wait_us (DelayMs 5)
  /\ 100 <= wait_us (DelayUs 150)
  /\ is_function_set 0x28 = true
  /\ is_display_control 0x0C = true
  /\ Z.land 0x0C LCD_DISPLAYON = LCD_DISPLAYON
  /\ LCD_CLEARDISPLAY = 0x01
  /\ is_entry_mode_set 0x06 = true
  /\ bus_monitor (init_events s')
     = [(0, 0x28); (0, 0x0C); (0, 0x01); (0, 0x06)].
Proof.
  intros s'. split; [apply lcd_init_eq|].
  cbn [wait_us]. repeat split; try reflexivity; lia.
Qed.

(** ** Setting and clearing one flag of a state byte *)

Lemma set_flag_testbit (x k : Z) :
  0 <= k < 8 -> Z.testbit (u8 (Z.lor x (2 ^ k))) k = true.
Proof.
  intros Hk. rewrite u8_testbit, Z.lor_spec, Z.pow2_bits_true by lia.
  destruct (Z.ltb_spec k 8); [|lia]. rewrite orb_true_r. reflexivity.
Qed.

Lemma clear_flag_testbit (x k : Z) :
  0 <= k < 8 -> Z.testbit (u8 (Z.land x (Z.lnot (2 ^ k)))) k = false.
Proof.
  intros Hk.
  rewrite u8_testbit, Z.land_spec, Z.lnot_spec, Z.pow2_bits_true by lia.
  rewrite andb_false_r, andb_false_r. reflexivity.
Qed.

Lemma set_flag_idem (x k : Z) :
  u8 (Z.lor (u8 (Z.lor x (2 ^ k))) (2 ^ k)) = u8 (Z.lor x (2 ^ k)).
Proof.
  apply Z.bits_inj'. intros n Hn.
  rewrite !u8_testbit, !Z.lor_spec, !u8_testbit, !Z.lor_spec by lia.
  destruct (n <? 8), (Z.testbit x n), (Z.testbit (2 ^ k) n); reflexivity.
Qed.

Lemma command_keeps_flag (cmd x k : Z) :
  0 <= k < 8 -> Z.testbit cmd k = false ->
  Z.testbit (u8 (Z.lor cmd x)) k = Z.testbit x k.
Proof.
  intros Hk Hc. rewrite u8_testbit, Z.lor_spec, Hc by lia.
  destruct (Z.ltb_spec k 8); [reflexivity | lia].
Qed.

Lemma flags3_cases (x : Z) :
  0 <= x < 8 ->
  x = 0 \/ x = 1 \/ x = 2 \/ x = 3 \/ x = 4 \/ x = 5 \/ x = 6 \/ x = 7.
Proof. lia. Qed.

Ltac by_flags x H :=
  let C := fresh in
  pose proof (flags3_cases x H) as C;
  repeat (destruct C as [C | C]; [rewrite C; vm_compute; intuition congruence|]);
  rewrite C; vm_compute; intuition congruence.

(** ** C8: switching the cursor on twice, then off *)

(** C8.  From any state [s], [lcd_cursor_on] leads to a state [s1] and
    emits one transfer of the command byte [LCD_DISPLAYCONTROL |
    display_control] with the cursor flag set; a second [lcd_cursor_on]
    emits the very same events and stays in [s1]; [lcd_cursor_off] after
    that emits the transfer of the byte with the cursor flag cleared.
    When the state byte holds flag bits only, as it does in every state
    the driver produces, both bytes decode as Display-Control commands. *)
Theorem cursor_on_twice_then_off (s : lcd) :
  let s1 := set_display_control
              (u8 (Z.lor (display_control s) LCD_CURSORON)) s in
  let on_byte := u8 (Z.lor LCD_DISPLAYCONTROL (display_control s1)) in
  let s2 := set_display_control
              (u8 (Z.land (display_control s1) (Z.lnot LCD_CURSORON))) s1 in
  let off_byte := u8 (Z.lor LCD_DISPLAYCONTROL (display_control s2)) in
  lcd_cursor_on s = Some (tt, s1, send_events s1 on_byte 0)
  /\ lcd_cursor_on s1 = Some (tt, s1, send_events s1 on_byte 0)
  /\ Z.land on_byte LCD_CURSORON = LCD_CURSORON
  /\ lcd_cursor_off s1 = Some (tt, s2, send_events s2 off_byte 0)
  /\ Z.land off_byte LCD_CURSORON = 0
  /\ (flags_only s ->
      is_display_control on_byte = true /\ is_display_control off_byte = true).
Proof.
  intros s1 on_byte s2 off_byte.
  assert (Hidem : set_display_control
                    (u8 (Z.lor (display_control s1) LCD_CURSORON)) s1 = s1).
  { unfold s1, set_display_control. cbn [display_control rs_pin en_pin dat4_pin
      dat5_pin dat6_pin dat7_pin display_function display_mode].
    change LCD_CURSORON with (2 ^ 1). rewrite set_flag_idem. reflexivity. }
  split; [apply lcd_cursor_on_eq|].
  split; [rewrite lcd_cursor_on_eq; cbv zeta; rewrite Hidem; reflexivity|].
  split.
  { change LCD_CURSORON with (2 ^ 1). rewrite land_pow2 by lia.
    unfold on_byte. rewrite command_keeps_flag by (reflexivity || lia).
    unfold s1. cbn [set_display_control display_control].
    change LCD_CURSORON with (2 ^ 1). rewrite set_flag_testbit by lia.
    reflexivity. }
  split; [apply lcd_cursor_off_eq|].
  split.
  { change LCD_CURSORON with (2 ^ 1). rewrite land_pow2 by lia.
    unfold off_byte. rewrite command_keeps_flag by (reflexivity || lia).
    unfold s2. cbn [set_display_control display_control].
    change LCD_CURSORON with (2 ^ 1). rewrite clear_flag_testbit by lia.
    reflexivity. }
  intros [Hc _]. unfold on_byte, off_byte, s2, s1.
  cbn [set_display_control display_control].
  by_flags (display_control s) Hc.
Qed.

(** Instance of C8 in the state [lcd_init] leaves over pins 1..6: both
    cursor-on transfers carry 0x0E, the cursor-off transfer 0x0C. *)
Lemma cursor_on_twice_then_off_witness :
  let s := mkLcd 1 2 3 4 5 6 0x08 0x04 0x02 in
  let s1 := mkLcd 1 2 3 4 5 6 0x08 0x06 0x02 in
  flags_only s
  /\ lcd_cursor_on s = Some (tt, s1, send_events s1 0x0E 0)
  /\ lcd_cursor_on s1 = Some (tt, s1, send_events s1 0x0E 0)
  /\ lcd_cursor_off s1 = Some (tt, s, send_events s 0x0C 0)
  /\ is_display_control 0x0E = true /\ is_display_control 0x0C = true.
Proof.
  intros s s1.
  assert (Hs : flags_only s) by (unfold flags_only; cbn; lia).
  pose proof (cursor_on_twice_then_off s) as (H1 & H2 & _ & H3 & _ & H4).
  split; [exact Hs|].
  split; [exact H1|]. split; [exact H2|]. split; [exact H3|].
  exact (H4 Hs).
Defined.

(** ** C7: writing a string *)

Lemma lcd_write_string_eq str s :
  lcd_write_string str s
  = match c_string str with
    | Some chars =>
        Some (tt, s, flat_map (fun c => send_events s (u8 c) 1) chars)
    | None => None
    end.
Proof.
  induction str as [|c rest IH]; [reflexivity|].
  cbn [lcd_write_string c_string]. unfold c_true.
  destruct (c =? 0); cbn [negb]; [reflexivity|].
  unfold bind. rewrite lcd_write_char_eq, IH.
  destruct (c_string rest) as [chars|]; reflexivity.
Qed.

Lemma c_string_terminated chars rest :
  Forall (fun c => c <> 0) chars -> c_string (chars ++ 0 :: rest) = Some chars.
Proof.
  induction 1 as [|c chars Hc _ IH]; [reflexivity|].
  cbn [app c_string]. destruct (Z.eqb_spec c 0); [contradiction|].
  rewrite IH. reflexivity.
Qed.

Lemma monitor_data_sends s chars rest :
  bus_monitor (flat_map (fun c => send_events s (u8 c) 1) chars ++ rest)
  = map (fun c => (1, u8 c)) chars ++ bus_monitor rest.
Proof.
  induction chars as [|c chars IH]; [reflexivity|].
  cbn [flat_map map]. rewrite <- !app_assoc, monitor_send, IH, u8_idem.
  reflexivity.
Qed.

Lemma flat_map_ext_Forall {A B} (P : A -> Prop) (f g : A -> list B) l :
  Forall P l -> (forall a, P a -> f a = g a) -> flat_map f l = flat_map g l.
Proof.
  intros Hl Hfg. induction Hl as [|a l Ha _ IH]; [reflexivity|].
  cbn [flat_map]. rewrite IH, (Hfg a Ha). reflexivity.
Qed.

(** C7.  For a string whose characters are the non-zero bytes [chars],
    followed in memory by the terminating zero (and by whatever comes
    after it), [lcd_write_string] emits one data-register transfer
    (register select 1) per character, in order, carrying the character's
    byte, and nothing for the zero; the bus shows exactly these bytes.
    Writing "Hi" emits the transfer of 0x48 and then that of 0x69. *)
Theorem lcd_write_string_sends (chars after : list Z) (s : lcd) :
  Forall (fun c => 0 < c < 256) chars ->
  lcd_write_string (chars ++ 0 :: after) s
  = Some (tt, s, flat_map (fun c => send_events s c 1) chars)
  /\ bus_monitor (flat_map (fun c => send_events s c 1) chars)
     = map (fun c => (1, c)) chars
  /\ lcd_write_string [0x48; 0x69; 0] s
     = Some (tt, s, send_events s 0x48 1 ++ send_events s 0x69 1).
Proof.
  intros Hchars.
  assert (Hnz : Forall (fun c => c <> 0) chars).
  { eapply Forall_impl; [|exact Hchars]. cbn. intros; lia. }
  assert (Hsame : flat_map (fun c => send_events s (u8 c) 1) chars
                  = flat_map (fun c => send_events s c 1) chars).
  { apply (flat_map_ext_Forall _ _ _ _ Hchars).
    intros c Hc. rewrite u8_small by lia. reflexivity. }
  split; [|split].
  - rewrite lcd_write_string_eq, c_string_terminated by exact Hnz.
    rewrite Hsame. reflexivity.
  - rewrite <- Hsame, <- (app_nil_r (flat_map _ chars)), monitor_data_sends.
    cbn [bus_monitor monitor_from]. rewrite app_nil_r.
    apply map_ext_Forall. eapply Forall_impl; [|exact Hchars].
    cbn. intros c Hc. rewrite u8_small by lia. reflexivity.
  - rewrite lcd_write_string_eq. cbn [c_string Z.eqb option_map flat_map].
    rewrite app_nil_r. reflexivity.
Qed.

(** Instance of C7: the string "Hi". *)
Lemma lcd_write_string_sends_witness :
  let s := mkLcd 1 2 3 4 5 6 0x08 0x04 0x02 in
  Forall (fun c => 0 < c < 256) [0x48; 0x69]
  /\ lcd_write_string [0x48; 0x69; 0] s
     = Some (tt, s, send_events s 0x48 1 ++ send_events s 0x69 1 ++ [])
  /\ bus_monitor (send_events s 0x48 1 ++ send_events s 0x69 1 ++ [])
     = [(1, 0x48); (1, 0x69)].
Proof.
  intros s.
  assert (H : Forall (fun c => 0 < c < 256) [0x48; 0x69])
    by (repeat constructor; lia).
  split; [exact H|].
  pose proof (lcd_write_string_sends [0x48; 0x69] [] s H) as (H1 & H2 & _).
  split; [exact H1 | exact H2].
Defined.

(** ** C4, C5: positioning the cursor *)

Lemma row_offsets_lookup r :
  0 <= r <= 3 ->
  nth_error row_offsets (Z.to_nat r) = Some (nth (Z.to_nat r) row_offsets 0).
Proof.
  intros H. assert (C : r = 0 \/ r = 1 \/ r = 2 \/ r = 3) by lia.
  destruct C as [-> | [-> | [-> | ->]]]; reflexivity.
Qed.

Lemma row_offsets_nonneg k : 0 <= nth k row_offsets 0.
Proof.
  destruct k as [|[|[|[|[|k]]]]]; cbn; lia.
Qed.

Lemma lcd_set_cursor_lines_eq n col row s :
  1 <= n -> 0 <= row ->
  let clamped := Z.min row (Z.min (Z.of_nat (List.length row_offsets) - 1) (n - 1)) in
  lcd_set_cursor_lines n col row s
  = Some (tt, s,
          send_events s
            (u8 (Z.lor LCD_SETDDRAMADDR
                   (col + nth (Z.to_nat clamped) row_offsets 0))) 0).
Proof.
  intros Hn Hrow clamped. unfold lcd_set_cursor_lines.
  change (Z.of_nat (List.length row_offsets)) with 4 in *.
  set (row1 := if 4 <=? row then u8 (4 - 1) else row).
  set (row2 := if n <=? row1 then u8 (n - 1) else row1).
  assert (H1 : row1 = Z.min row 3).
  { subst row2 row1. change (u8 (4 - 1)) with 3.
    destruct (Z.leb_spec 4 row); lia. }
  assert (H2 : row2 = clamped).
  { subst row2 clamped. rewrite H1.
    destruct (Z.leb_spec n (Z.min row 3)); [rewrite u8_small|]; lia. }
  rewrite H2, row_offsets_lookup by (unfold clamped; lia).
  apply lcd_command_eq.
Qed.

Lemma ddram_byte_range x :
  LCD_SETDDRAMADDR <= u8 (Z.lor LCD_SETDDRAMADDR x) < 256.
Proof.
  pose proof (u8_range (Z.lor LCD_SETDDRAMADDR x)) as Hr.
  split; [|lia].
  assert (Hb : Z.testbit (u8 (Z.lor LCD_SETDDRAMADDR x)) 7 = true).
  { rewrite u8_testbit, Z.lor_spec by lia. reflexivity. }
  destruct (Z.lt_ge_cases (u8 (Z.lor LCD_SETDDRAMADDR x)) LCD_SETDDRAMADDR)
    as [Hlt|Hge]; [|exact Hge].
  apply Z.testbit_true in Hb; [|lia].
  change (2 ^ 7) with 128 in Hb. change LCD_SETDDRAMADDR with 128 in *.
  rewrite Z.div_small in Hb by lia. discriminate.
Qed.

Lemma ddram_byte_payload x :
  payload LCD_SETDDRAMADDR (u8 (Z.lor LCD_SETDDRAMADDR x)) = x mod 128.
Proof.
  unfold payload. change (LCD_SETDDRAMADDR - 1) with (Z.ones 7).
  rewrite Z.land_ones by lia. change (2 ^ 7) with 128.
  apply Z.bits_inj'. intros n Hn. change 128 with (2 ^ 7).
  rewrite !Z.testbit_mod_pow2, u8_testbit, Z.lor_spec by lia.
  destruct (Z.ltb_spec n 7) as [Hlt|Hge]; [|reflexivity].
  change LCD_SETDDRAMADDR with (2 ^ 7). rewrite Z.pow2_bits_false by lia.
  destruct (Z.ltb_spec n 8); [reflexivity | lia].
Qed.

(** C5.  [lcd_set_cursor] always returns: the row is clamped to the
    smaller of (length of [row_offsets] - 1) and ([NUM_LINES] - 1), the
    table lookup at the clamped row is in bounds, and the one byte sent,
    to the instruction register, is [LCD_SETDDRAMADDR | (col + offset)]
    converted to [uint8_t].  That byte always decodes as a
    Set-DDRAM-Address command; its 7-bit address field is [col + offset]
    modulo 128, so it is [col + offset] itself whenever that fits, and the
    column is never checked. *)
Theorem lcd_set_cursor_clamps (col row : Z) (s : lcd) :
  0 <= col < 65536 -> 0 <= row < 256 ->
  let clamped :=
    Z.min row (Z.min (Z.of_nat (List.length row_offsets) - 1) (NUM_LINES - 1)) in
  exists offset byte,
    nth_error row_offsets (Z.to_nat clamped) = Some offset
    /\ byte = u8 (Z.lor LCD_SETDDRAMADDR (col + offset))
    /\ lcd_set_cursor col row s = Some (tt, s, send_events s byte 0)
    /\ is_set_ddram_addr byte = true
    /\ payload LCD_SETDDRAMADDR byte = (col + offset) mod 128
    /\ (col + offset < 128 -> byte = LCD_SETDDRAMADDR + (col + offset)).
Proof.
  intros Hcol Hrow clamped.
  assert (Hc : 0 <= clamped <= 3) by (unfold clamped; cbn; lia).
  exists (nth (Z.to_nat clamped) row_offsets 0).
  eexists. split; [apply row_offsets_lookup; exact Hc|].
  split; [reflexivity|].
  split; [apply lcd_set_cursor_lines_eq; unfold NUM_LINES; lia|].
  set (offset := nth (Z.to_nat clamped) row_offsets 0).
  assert (Hoff : 0 <= offset) by apply row_offsets_nonneg.
  pose proof (ddram_byte_range (col + offset)) as Hr.
  split.
  { unfold is_set_ddram_addr.
    apply andb_true_iff. split; [apply Z.leb_le | apply Z.ltb_lt]; lia. }
  split; [apply ddram_byte_payload|].
  intros Hfit.
  pose proof (ddram_byte_payload (col + offset)) as Hp.
  rewrite Z.mod_small in Hp by lia.
  unfold payload in Hp. change (LCD_SETDDRAMADDR - 1) with (Z.ones 7) in Hp.
  rewrite Z.land_ones in Hp by lia. change (2 ^ 7) with 128 in Hp.
  change LCD_SETDDRAMADDR with 128 in *.
  pose proof (Z.div_mod (u8 (Z.lor 128 (col + offset))) 128 ltac:(lia)) as Hd.
  assert (Hq : u8 (Z.lor 128 (col + offset)) / 128 = 1).
  { apply Z.le_antisymm.
    - apply Z.lt_succ_r. apply Z.div_lt_upper_bound; lia.
    - apply Z.div_le_lower_bound; lia. }
  rewrite Hq, Hp in Hd. lia.
Qed.

(** Instance of C5: column 20 on row 7 goes to address 20 + 0x40. *)
Lemma lcd_set_cursor_clamps_witness :
  let s := mkLcd 1 2 3 4 5 6 0x08 0x04 0x02 in
  exists offset byte,
    nth_error row_offsets 1 = Some offset
    /\ byte = u8 (Z.lor LCD_SETDDRAMADDR (20 + offset))
    /\ lcd_set_cursor 20 7 s = Some (tt, s, send_events s byte 0)
    /\ is_set_ddram_addr byte = true
    /\ payload LCD_SETDDRAMADDR byte = (20 + offset) mod 128
    /\ (20 + offset < 128 -> byte = LCD_SETDDRAMADDR + (20 + offset)).
Proof.
  intros s.
  exact (lcd_set_cursor_clamps 20 7 s ltac:(lia) ltac:(lia)).
Defined.

(** C4 (as amended).  With [NUM_LINES] = 2, as the header sets it,
    [lcd_set_cursor] called with a row of 2 or more -- rows of 4 or more
    included -- sends the Set-DDRAM-Address command with the row-1 offset
    0x40.  The row-3 offset 0x50 is what a row of 4 or more gets only
    when the line count is configured to 4 or more. *)
Theorem lcd_set_cursor_row_clamp (col row : Z) (s : lcd) :
  2 <= row ->
  lcd_set_cursor col row s
  = Some (tt, s, send_events s (u8 (Z.lor LCD_SETDDRAMADDR (col + 0x40))) 0)
  /\ (4 <= row ->
      forall num_lines, 4 <= num_lines ->
        lcd_set_cursor_lines num_lines col row s
        = Some (tt, s,
                send_events s (u8 (Z.lor LCD_SETDDRAMADDR (col + 0x50))) 0)).
Proof.
  intros Hrow. split.
  - unfold lcd_set_cursor.
    rewrite lcd_set_cursor_lines_eq by (unfold NUM_LINES; lia).
    change (Z.of_nat (List.length row_offsets) - 1) with 3.
    change (NUM_LINES - 1) with 1.
    replace (Z.min row (Z.min 3 1)) with 1 by lia. reflexivity.
  - intros Hrow4 n Hn.
    rewrite lcd_set_cursor_lines_eq by lia.
    change (Z.of_nat (List.length row_offsets) - 1) with 3.
    replace (Z.min row (Z.min 3 (n - 1))) with 3 by lia. reflexivity.
Qed.

(** Instance of C4 (as amended): row 4, column 0. *)
Lemma lcd_set_cursor_row_clamp_witness :
  let s := mkLcd 1 2 3 4 5 6 0x08 0x04 0x02 in
  lcd_set_cursor 0 4 s = Some (tt, s, send_events s 0xC0 0)
  /\ lcd_set_cursor_lines 4 0 4 s = Some (tt, s, send_events s 0xD0 0).
Proof.
  intros s.
  pose proof (lcd_set_cursor_row_clamp 0 4 s ltac:(lia)) as [H1 H2].
  split; [exact H1|].
  exact (H2 ltac:(lia) 4 ltac:(lia)).
Defined.

(** C4 as stated fails: on the driver as compiled, row 4 at column 0 sends
    the byte 0xC0 (offset 0x40), not 0xD0 (offset 0x50). *)
Lemma lcd_set_cursor_row4_not_0x50 :
  let s := mkLcd 1 2 3 4 5 6 0x08 0x04 0x02 in
  lcd_set_cursor 0 4 s = Some (tt, s, send_events s 0xC0 0)
  /\ bus_monitor (send_events s 0xC0 0) = [(0, 0xC0)]
  /\ lcd_set_cursor 0 4 s
     <> Some (tt, s, send_events s (u8 (Z.lor LCD_SETDDRAMADDR (0 + 0x50))) 0).
Proof.
  intros s. split; [reflexivity|]. split; [reflexivity|].
  intros H. vm_compute in H. discriminate H.
Qed.

(** ** The command log *)

Lemma last_command_app kind l1 l2 :
  last_command kind (l1 ++ l2)
  = match last_command kind l2 with
    | Some b => Some b
    | None => last_command kind l1
    end.
Proof.
  induction l1 as [|[m b] l1 IH]; cbn [app last_command].
  - destruct (last_command kind l2); reflexivity.
  - rewrite IH. destruct (last_command kind l2); reflexivity.
Qed.

Lemma last_command_data kind (f : Z -> Z) chars :
  last_command kind (map (fun c => (1, f c)) chars) = None.
Proof.
  induction chars as [|c chars IH]; [reflexivity|].
  cbn [map last_command]. rewrite IH. reflexivity.
Qed.

Lemma synced_mirrors s log : synced s log -> mirrors s log.
Proof.
  intros (Hc & Hm & Fc & Fm). unfold mirrors. rewrite Hc, Hm.
  cbn [option_map]. split; f_equal.
  - unfold payload. by_flags (display_control s) Fc.
  - unfold payload.
    assert (Fm' : 0 <= display_mode s < 8) by lia.
    pose proof (flags3_cases _ Fm') as C.
    destruct C as [C|[C|[C|[C|C]]]]; try (rewrite C; reflexivity); lia.
Qed.

(** A log without commands of either kind leaves the invariant alone. *)
Lemma synced_frame s log lg :
  last_command is_display_control lg = None ->
  last_command is_entry_mode_set lg = None ->
  synced s log -> synced s (log ++ lg).
Proof.
  intros H1 H2 (Hc & Hm & Hf). unfold synced.
  rewrite !last_command_app, H1, H2. auto.
Qed.

Lemma synced_control s log v :
  0 <= v < 8 ->
  synced s log ->
  synced (set_display_control v s)
         (log ++ [(0, u8 (u8 (Z.lor LCD_DISPLAYCONTROL v)))]).
Proof.
  intros Hv (Hc & Hm & Fc & Fm).
  assert (Hb : u8 (u8 (Z.lor LCD_DISPLAYCONTROL v)) = LCD_DISPLAYCONTROL + v)
    by (by_flags v Hv).
  rewrite Hb. unfold synced, flags_only. rewrite !last_command_app.
  cbn [set_display_control display_control display_mode last_command].
  assert (H1 : is_display_control (LCD_DISPLAYCONTROL + v) = true)
    by (by_flags v Hv).
  assert (H2 : is_entry_mode_set (LCD_DISPLAYCONTROL + v) = false)
    by (by_flags v Hv).
  rewrite H1, H2. cbn. auto.
Qed.

Lemma synced_mode s log v :
  0 <= v < 4 ->
  synced s log ->
  synced (set_display_mode v s)
         (log ++ [(0, u8 (u8 (Z.lor LCD_ENTRYMODESET v)))]).
Proof.
  intros Hv (Hc & Hm & Fc & Fm).
  assert (Hv' : 0 <= v < 8) by lia.
  assert (Hb : u8 (u8 (Z.lor LCD_ENTRYMODESET v)) = LCD_ENTRYMODESET + v).
  { pose proof (flags3_cases _ Hv') as C.
    destruct C as [C|[C|[C|[C|C]]]]; try (rewrite C; reflexivity); lia. }
  rewrite Hb. unfold synced, flags_only. rewrite !last_command_app.
  cbn [set_display_mode display_control display_mode last_command].
  assert (H1 : is_entry_mode_set (LCD_ENTRYMODESET + v) = true).
  { unfold is_entry_mode_set, LCD_ENTRYMODESET, LCD_DISPLAYCONTROL.
    apply andb_true_iff. split; [apply Z.leb_le | apply Z.ltb_lt]; lia. }
  assert (H2 : is_display_control (LCD_ENTRYMODESET + v) = false).
  { unfold is_display_control, LCD_ENTRYMODESET, LCD_DISPLAYCONTROL.
    apply andb_false_iff. left. apply Z.leb_gt. lia. }
  rewrite H1, H2. cbn. auto.
Qed.

Lemma set_flag_range x k : 0 <= x < 8 -> 0 <= k < 3 ->
  0 <= u8 (Z.lor x (2 ^ k)) < 8.
Proof.
  intros Hx Hk. assert (C : k = 0 \/ k = 1 \/ k = 2) by lia.
  destruct C as [-> | [-> | ->]]; by_flags x Hx.
Qed.

Lemma clear_flag_range x k : 0 <= x < 8 -> 0 <= k < 3 ->
  0 <= u8 (Z.land x (Z.lnot (2 ^ k))) < 8.
Proof.
  intros Hx Hk. assert (C : k = 0 \/ k = 1 \/ k = 2) by lia.
  destruct C as [-> | [-> | ->]]; by_flags x Hx.
Qed.

Lemma set_mode_flag_range x k : 0 <= x < 4 -> 0 <= k < 2 ->
  0 <= u8 (Z.lor x (2 ^ k)) < 4.
Proof.
  intros Hx Hk. assert (Hx' : 0 <= x < 8) by lia.
  assert (C : k = 0 \/ k = 1) by lia.
  pose proof (flags3_cases _ Hx') as D.
  destruct C as [-> | ->];
    destruct D as [D|[D|[D|[D|D]]]]; try (rewrite D; vm_compute; intuition congruence); lia.
Qed.

Lemma clear_mode_flag_range x k : 0 <= x < 4 -> 0 <= k < 2 ->
  0 <= u8 (Z.land x (Z.lnot (2 ^ k))) < 4.
Proof.
  intros Hx Hk. assert (Hx' : 0 <= x < 8) by lia.
  assert (C : k = 0 \/ k = 1) by lia.
  pose proof (flags3_cases _ Hx') as D.
  destruct C as [-> | ->];
    destruct D as [D|[D|[D|[D|D]]]]; try (rewrite D; vm_compute; intuition congruence); lia.
Qed.

(** ** One public operation: its bus log and the invariant *)

Lemma monitor_init s rest :
  bus_monitor (init_events s ++ rest)
  = [(0, 0x28); (0, 0x0C); (0, 0x01); (0, 0x06)] ++ bus_monitor rest.
Proof. reflexivity. Qed.

Lemma lcd_set_cursor_inv col row s s' tr :
  lcd_set_cursor col row s = Some (tt, s', tr) ->
  s' = s /\ exists x, tr = send_events s (u8 (Z.lor LCD_SETDDRAMADDR x)) 0.
Proof.
  unfold lcd_set_cursor, lcd_set_cursor_lines.
  destruct (nth_error row_offsets _) as [offset|]; [|discriminate].
  rewrite lcd_command_eq. intros H. apply result_inv in H as (_ & -> & ->).
  split; [reflexivity|]. eexists. reflexivity.
Qed.

Lemma into_str10_inv text s str s' t :
  into_str10 text s = Some (str, s', t) ->
  str = text ++ [0] /\ s' = s /\ t = [] /\ (List.length text < 10)%nat.
Proof.
  unfold into_str10.
  destruct (Z.leb_spec (Z.of_nat (List.length text) + 1) 10) as [Hfit|_];
    [|discriminate].
  intros H. injection H as <- <- <-. repeat split; lia.
Qed.

Lemma lcd_write_string_inv str s s' tr :
  lcd_write_string str s = Some (tt, s', tr) ->
  s' = s /\ exists chars,
    c_string str = Some chars
    /\ tr = flat_map (fun c => send_events s (u8 c) 1) chars.
Proof.
  rewrite lcd_write_string_eq.
  destruct (c_string str) as [chars|]; [|discriminate].
  intros H. apply result_inv in H as (_ & -> & ->). split; [reflexivity|].
  exists chars. split; reflexivity.
Qed.

Lemma formatted_write_inv text s s' tr :
  (str <- into_str10 text ;; lcd_write_string str) s = Some (tt, s', tr) ->
  s' = s /\ exists chars,
    tr = flat_map (fun c => send_events s (u8 c) 1) chars.
Proof.
  intros H. apply bind_inv in H as (str & s1 & t1 & t2 & Hf & Hw & ->).
  apply into_str10_inv in Hf as (-> & -> & -> & _).
  apply lcd_write_string_inv in Hw as (-> & chars & _ & ->).
  split; [reflexivity|]. exists chars. reflexivity.
Qed.

Ltac log_of_send :=
  match goal with
  | |- exists lg, (forall rest,
         bus_monitor ((send_events _ ?v ?m ++ _) ++ rest) = _) /\ _ =>
      exists [(m, u8 v)]
  | |- exists lg, (forall rest,
         bus_monitor (send_events _ ?v ?m ++ rest) = _) /\ _ =>
      exists [(m, u8 v)]
  end.

Ltac step_control lemma range :=
  match goal with
  | H : _ = Some (tt, ?s', ?tr) |- _ =>
      rewrite lemma in H; cbv zeta in H;
      apply result_inv in H as (_ & -> & ->);
      log_of_send; split;
      [ intros rest; apply monitor_send
      | intros log [Hi | Hs]; [discriminate Hi|];
        cbn [set_display_control display_control];
        apply synced_control; [apply range; [apply Hs | lia] | exact Hs] ]
  end.

Ltac step_mode lemma range :=
  match goal with
  | H : _ = Some (tt, ?s', ?tr) |- _ =>
      rewrite lemma in H; cbv zeta in H;
      apply result_inv in H as (_ & -> & ->);
      log_of_send; split;
      [ intros rest; apply monitor_send
      | intros log [Hi | Hs]; [discriminate Hi|];
        cbn [set_display_mode display_mode];
        apply synced_mode; [apply range; [apply Hs | lia] | exact Hs] ]
  end.

Ltac step_plain lemma :=
  match goal with
  | H : _ = Some (tt, ?s', ?tr) |- _ =>
      rewrite lemma in H; apply result_inv in H as (_ & -> & ->);
      log_of_send; split;
      [ intros rest; rewrite <- ?app_assoc, monitor_send; reflexivity
      | intros log [Hi | Hs]; [discriminate Hi|];
        apply synced_frame; [reflexivity | reflexivity | exact Hs] ]
  end.

Lemma call_synced {F} (fmt : F -> list Z) (o : op F) s s' tr :
  call fmt o s = Some (tt, s', tr) ->
  exists lg,
    (forall rest, bus_monitor (tr ++ rest) = lg ++ bus_monitor rest)
    /\ (forall log, is_init o = true \/ synced s log -> synced s' (log ++ lg)).
Proof.
  intros H. destruct o; cbn [call is_init] in *.
  - rewrite lcd_init_eq in H. cbv zeta in H.
    apply result_inv in H as (_ & -> & ->).
    exists [(0, 0x28); (0, 0x0C); (0, 0x01); (0, 0x06)].
    split; [intros rest; apply monitor_init|].
    intros log _. unfold synced, flags_only. rewrite !last_command_app.
    cbn. repeat split; lia.
  - step_control lcd_display_off_eq (fun x => clear_flag_range x 2).
  - step_control lcd_display_on_eq (fun x => set_flag_range x 2).
  - step_plain lcd_clear_eq.
  - step_plain lcd_home_eq.
  - step_plain lcd_shift_left_eq.
  - step_plain lcd_shift_right_eq.
  - step_control lcd_cursor_on_eq (fun x => set_flag_range x 1).
  - step_control lcd_cursor_off_eq (fun x => clear_flag_range x 1).
  - step_control lcd_blink_on_eq (fun x => set_flag_range x 0).
  - step_control lcd_blink_off_eq (fun x => clear_flag_range x 0).
  - step_mode lcd_autoscroll_on_eq (fun x => set_mode_flag_range x 0).
  - step_mode lcd_autoscroll_off_eq (fun x => clear_mode_flag_range x 0).
  - step_mode lcd_right_to_left_eq (fun x => clear_mode_flag_range x 1).
  - step_mode lcd_left_to_right_eq (fun x => set_mode_flag_range x 1).
  - apply lcd_set_cursor_inv in H as (-> & x & ->).
    log_of_send. split; [intros rest; apply monitor_send|].
    intros log [Hi | Hs]; [discriminate Hi|].
    pose proof (ddram_byte_range x) as Hr. rewrite u8_idem.
    change LCD_SETDDRAMADDR with 128 in *.
    apply synced_frame; [| | exact Hs]; cbn [last_command Z.eqb andb].
    + unfold is_display_control, LCD_DISPLAYCONTROL, LCD_CURSORSHIFT.
      destruct (Z.ltb_spec (u8 (Z.lor 128 x)) 16); [lia|].
      rewrite andb_false_r. reflexivity.
    + unfold is_entry_mode_set, LCD_DISPLAYCONTROL, LCD_ENTRYMODESET.
      destruct (Z.ltb_spec (u8 (Z.lor 128 x)) 8); [lia|].
      rewrite andb_false_r. reflexivity.
  - rewrite lcd_write_char_eq in H. apply result_inv in H as (_ & -> & ->).
    log_of_send. split; [intros rest; apply monitor_send|].
    intros log [Hi | Hs]; [discriminate Hi|].
    apply synced_frame; [reflexivity | reflexivity | exact Hs].
  - apply lcd_write_string_inv in H as (-> & chars & _ & ->).
    exists (map (fun c => (1, u8 c)) chars).
    split; [intros rest; apply monitor_data_sends|].
    intros log [Hi | Hs]; [discriminate Hi|].
    apply synced_frame; [apply last_command_data .. | exact Hs].
  - apply formatted_write_inv in H as (-> & chars & ->).
    exists (map (fun c => (1, u8 c)) chars).
    split; [intros rest; apply monitor_data_sends|].
    intros log [Hi | Hs]; [discriminate Hi|].
    apply synced_frame; [apply last_command_data .. | exact Hs].
  - apply formatted_write_inv in H as (-> & chars & ->).
    exists (map (fun c => (1, u8 c)) chars).
    split; [intros rest; apply monitor_data_sends|].
    intros log [Hi | Hs]; [discriminate Hi|].
    apply synced_frame; [apply last_command_data .. | exact Hs].
Qed.

(** ** C6: the state bytes mirror the controller *)

Lemma run_synced {F} (fmt : F -> list Z) (ops : list (op F)) :
  forall s s' tr log,
    synced s log ->
    run fmt ops s = Some (tt, s', tr) ->
    exists lg,
      (forall rest, bus_monitor (tr ++ rest) = lg ++ bus_monitor rest)
      /\ synced s' (log ++ lg).
Proof.
  induction ops as [|o ops IH]; intros s s' tr log Hs Hrun.
  - cbn [run] in Hrun. apply result_inv in Hrun as (_ & -> & ->).
    exists []. split; [reflexivity|]. rewrite app_nil_r. exact Hs.
  - cbn [run] in Hrun.
    apply bind_inv in Hrun as ([] & s1 & t1 & t2 & Ho & Hrest & ->).
    apply call_synced in Ho as (lg1 & Hm1 & Hs1).
    specialize (Hs1 log (or_intror Hs)).
    destruct (IH s1 s' t2 (log ++ lg1) Hs1 Hrest) as (lg2 & Hm2 & Hs2).
    exists (lg1 ++ lg2). split.
    + intros rest. rewrite <- !app_assoc, Hm1, Hm2. reflexivity.
    + rewrite app_assoc. exact Hs2.
Qed.

Lemma toggle_control_transmits {F} (fmt : F -> list Z) (o : op F) s1 s2 t :
  call fmt o s1 = Some (tt, s2, t) ->
  toggles_control o = true ->
  t = send_events s2 (u8 (Z.lor LCD_DISPLAYCONTROL (display_control s2))) 0
  /\ display_mode s2 = display_mode s1.
Proof.
  intros H Ho. destruct o; try discriminate Ho; cbn [call] in H.
  - rewrite lcd_display_off_eq in H. apply result_inv in H as (_ & -> & ->).
    split; reflexivity.
  - rewrite lcd_display_on_eq in H. apply result_inv in H as (_ & -> & ->).
    split; reflexivity.
  - rewrite lcd_cursor_on_eq in H. apply result_inv in H as (_ & -> & ->).
    split; reflexivity.
  - rewrite lcd_cursor_off_eq in H. apply result_inv in H as (_ & -> & ->).
    split; reflexivity.
  - rewrite lcd_blink_on_eq in H. apply result_inv in H as (_ & -> & ->).
    split; reflexivity.
  - rewrite lcd_blink_off_eq in H. apply result_inv in H as (_ & -> & ->).
    split; reflexivity.
Qed.

Lemma toggle_mode_transmits {F} (fmt : F -> list Z) (o : op F) s1 s2 t :
  call fmt o s1 = Some (tt, s2, t) ->
  toggles_mode o = true ->
  t = send_events s2 (u8 (Z.lor LCD_ENTRYMODESET (display_mode s2))) 0
  /\ display_control s2 = display_control s1.
Proof.
  intros H Ho. destruct o; try discriminate Ho; cbn [call] in H.
  - rewrite lcd_autoscroll_on_eq in H. apply result_inv in H as (_ & -> & ->).
    split; reflexivity.
  - rewrite lcd_autoscroll_off_eq in H. apply result_inv in H as (_ & -> & ->).
    split; reflexivity.
  - rewrite lcd_right_to_left_eq in H. apply result_inv in H as (_ & -> & ->).
    split; reflexivity.
  - rewrite lcd_left_to_right_eq in H. apply result_inv in H as (_ & -> & ->).
    split; reflexivity.
Qed.

Lemma plain_call_frame {F} (fmt : F -> list Z) (o : op F) s s' tr :
  call fmt o s = Some (tt, s', tr) ->
  writes_state o = false ->
  s' = s.
Proof.
  intros H Ho. destruct o; try discriminate Ho; cbn [call] in H.
  - rewrite lcd_clear_eq in H. apply result_inv in H as (_ & -> & _).
    reflexivity.
  - rewrite lcd_home_eq in H. apply result_inv in H as (_ & -> & _).
    reflexivity.
  - rewrite lcd_shift_left_eq in H. apply result_inv in H as (_ & -> & _).
    reflexivity.
  - rewrite lcd_shift_right_eq in H. apply result_inv in H as (_ & -> & _).
    reflexivity.
  - apply lcd_set_cursor_inv in H as (-> & _). reflexivity.
  - rewrite lcd_write_char_eq in H. apply result_inv in H as (_ & -> & _).
    reflexivity.
  - apply lcd_write_string_inv in H as (-> & _). reflexivity.
  - apply formatted_write_inv in H as (-> & _). reflexivity.
  - apply formatted_write_inv in H as (-> & _). reflexivity.
Qed.

(** C6.  Take any program that calls [lcd_init] and then any public
    operations, and that runs to its end in state [s] with trace [tr].
    Then [display_control s] is the payload of the last Display-Control
    command on the bus and [display_mode s] that of the last
    Entry-Mode-Set command.  The reason, operation by operation: each of
    the six operations that rewrite [display_control] (resp. the four that
    rewrite [display_mode]) emits one transfer and nothing else, that of
    the full command byte built from the new value; [lcd_init] sends both
    commands with the values it has just stored; no other operation
    touches the state. *)
Theorem state_bytes_mirror_controller
    {F} (fmt : F -> list Z) (rs en d4 d5 d6 d7 : Z) (ops : list (op F))
    (s0 s : lcd) (tr : trace) :
  run fmt (Init rs en d4 d5 d6 d7 :: ops) s0 = Some (tt, s, tr) ->
  mirrors s (bus_monitor tr)
  /\ (forall (o : op F) (s1 s2 : lcd) (t : trace),
        call fmt o s1 = Some (tt, s2, t) ->
        (toggles_control o = true ->
           t = send_events s2
                 (u8 (Z.lor LCD_DISPLAYCONTROL (display_control s2))) 0
           /\ display_mode s2 = display_mode s1)
        /\ (toggles_mode o = true ->
              t = send_events s2
                    (u8 (Z.lor LCD_ENTRYMODESET (display_mode s2))) 0
              /\ display_control s2 = display_control s1)
        /\ (is_init o = true ->
              bus_monitor t
              = [(0, 0x28);
                 (0, u8 (Z.lor LCD_DISPLAYCONTROL (display_control s2)));
                 (0, LCD_CLEARDISPLAY);
                 (0, u8 (Z.lor LCD_ENTRYMODESET (display_mode s2)))])
        /\ (writes_state o = false -> s2 = s1)).
Proof.
  intros Hrun. split.
  - cbn [run] in Hrun.
    apply bind_inv in Hrun as ([] & s1 & t1 & t2 & Hi & Hrest & ->).
    apply call_synced in Hi as (lg1 & Hm1 & Hs1).
    specialize (Hs1 [] (or_introl eq_refl)).
    destruct (run_synced fmt ops s1 s t2 _ Hs1 Hrest) as (lg2 & Hm2 & Hs2).
    apply synced_mirrors.
    rewrite Hm1, <- (app_nil_r t2), Hm2. cbn [bus_monitor monitor_from].
    rewrite app_nil_r. exact Hs2.
  - intros o s1 s2 t Hcall. repeat split.
    + eapply toggle_control_transmits; eassumption.
    + eapply toggle_control_transmits; eassumption.
    + eapply toggle_mode_transmits; eassumption.
    + eapply toggle_mode_transmits; eassumption.
    + intros Hinit. destruct o; try discriminate Hinit. cbn [call] in Hcall.
      rewrite lcd_init_eq in Hcall. cbv zeta in Hcall.
      apply result_inv in Hcall as (_ & -> & ->). reflexivity.
    + intros Hw. eapply plain_call_frame; eassumption.
Qed.

(** Instance of C6: a program run from the boot state. *)
Lemma state_bytes_mirror_controller_witness :
  match
    run (fun _ : unit => [0x33; 0x2E; 0x31; 0x34; 0x31; 0x36])
        [Init 1 2 3 4 5 6; CursorOn; WriteString [0x48; 0x69; 0];
         AutoscrollOn; SetCursor 3 5; WriteInt 42; RightToLeft; BlinkOn;
         WriteFloat tt; Clear; DisplayOff]
        lcd_boot
  with
  | Some (_, s, tr) => mirrors s (bus_monitor tr)
  | None => False
  end.
Proof.
  destruct (run _ _ lcd_boot) as [[[[] s] tr]|] eqn:E.
  - exact (proj1 (state_bytes_mirror_controller _ _ _ _ _ _ _ _ _ _ _ E)).
  - vm_compute in E. discriminate E.
Defined.

(** ** C10: operations that leave the driver variables alone *)

Lemma lcd_set_cursor_total col row s :
  exists tr, lcd_set_cursor col row s = Some (tt, s, tr).
Proof.
  unfold lcd_set_cursor, lcd_set_cursor_lines.
  change (Z.of_nat (List.length row_offsets)) with 4.
  change (u8 (4 - 1)) with 3. change (u8 (NUM_LINES - 1)) with 1.
  unfold NUM_LINES.
  assert (Hsome : forall r, r <= 1 ->
            exists offset, nth_error row_offsets (Z.to_nat r) = Some offset).
  { intros r Hr. assert (Hn : (Z.to_nat r <= 1)%nat) by lia.
    destruct (Z.to_nat r) as [|[|k]]; [eexists; reflexivity .. | lia]. }
  set (row1 := if 4 <=? row then 3 else row).
  set (row2 := if 2 <=? row1 then 1 else row1).
  assert (H2 : row2 <= 1).
  { subst row2. destruct (Z.leb_spec 2 row1); lia. }
  destruct (Hsome row2 H2) as [offset ->].
  eexists. apply lcd_command_eq.
Qed.

Lemma c_string_finds_zero text after :
  exists chars, c_string (text ++ 0 :: after) = Some chars.
Proof.
  induction text as [|c text [chars IH]]; cbn [app c_string].
  - exists []. reflexivity.
  - destruct (c =? 0); [exists []; reflexivity|].
    rewrite IH. eexists. reflexivity.
Qed.

Lemma formatted_write_total text s :
  (List.length text < 10)%nat ->
  exists tr, (str <- into_str10 text ;; lcd_write_string str) s = Some (tt, s, tr).
Proof.
  intros Hfit. unfold bind, into_str10.
  destruct (Z.leb_spec (Z.of_nat (List.length text) + 1) 10) as [_|Hbig]; [|lia].
  cbn [ret]. rewrite lcd_write_string_eq.
  destruct (c_string_finds_zero text []) as [chars ->].
  eexists. reflexivity.
Qed.

Lemma plain_call_total {F} (fmt : F -> list Z) (o : op F) s :
  keeps_state o = true ->
  in_bounds fmt o ->
  exists tr, call fmt o s = Some (tt, s, tr).
Proof.
  intros Ho Hb. destruct o; try discriminate Ho; cbn [call in_bounds] in *.
  - eexists. apply lcd_clear_eq.
  - eexists. apply lcd_home_eq.
  - eexists. apply lcd_shift_left_eq.
  - eexists. apply lcd_shift_right_eq.
  - apply lcd_set_cursor_total.
  - eexists. apply lcd_write_char_eq.
  - rewrite lcd_write_string_eq.
    destruct (c_string str) as [chars|]; [|contradiction].
    eexists. reflexivity.
  - apply formatted_write_total. exact Hb.
  - apply formatted_write_total. exact Hb.
Qed.

Lemma keeps_or_writes {F} (o : op F) : writes_state o = negb (keeps_state o).
Proof. destruct o; reflexivity. Qed.

(** C10 (as amended).  Each of the nine operations [lcd_clear],
    [lcd_home], [lcd_shift_left], [lcd_shift_right], [lcd_set_cursor],
    [lcd_write_char], [lcd_write_string], [lcd_write_int] and
    [lcd_write_float] returns with the three state bytes and the six pin
    numbers exactly as it found them, for every argument and every
    starting state in which it stays inside its arrays (the string is
    zero-terminated, the formatted number fits the 10-byte buffer).  Every
    public operation is one of these nine or one of the eleven that
    assign to a driver variable: [lcd_init] and the ten flag operations,
    the two text-direction ones among them. *)
Theorem plain_operations_keep_state
    {F} (fmt : F -> list Z) (o : op F) (s : lcd) :
  keeps_state o = true ->
  (forall s' tr, call fmt o s = Some (tt, s', tr) -> s' = s)
  /\ (in_bounds fmt o -> exists tr, call fmt o s = Some (tt, s, tr))
  /\ (forall o' : op F,
        keeps_state o' = negb (is_init o' || toggles_control o' || toggles_mode o'))
  /\ (forall (o' : op F) s1 s2 tr,
        call fmt o' s1 = Some (tt, s2, tr) -> s2 <> s1 ->
        is_init o' || toggles_control o' || toggles_mode o' = true).
Proof.
  intros Ho. repeat split.
  - intros s' tr H. eapply plain_call_frame; [exact H|].
    rewrite keeps_or_writes, Ho. reflexivity.
  - intros Hb. apply plain_call_total; assumption.
  - intros o'. destruct o'; reflexivity.
  - intros o' s1 s2 tr H Hne.
    destruct (is_init o' || toggles_control o' || toggles_mode o') eqn:Hw;
      [reflexivity|].
    exfalso. apply Hne. eapply plain_call_frame; [exact H | exact Hw].
Qed.

(** Instance of C10 (as amended): printing the number 42. *)
Lemma plain_operations_keep_state_witness :
  let s := mkLcd 1 2 3 4 5 6 0x08 0x04 0x02 in
  sprintf_d 42 = [0x34; 0x32]
  /\ exists tr, lcd_write_int 42 s = Some (tt, s, tr).
Proof.
  intros s. split; [reflexivity|].
  pose proof (plain_operations_keep_state
                (fun _ : unit => []) (WriteInt 42) s eq_refl) as (_ & H & _).
  apply H. cbn. lia.
Defined.

(** C10 as stated fails: [lcd_right_to_left] is neither [lcd_init] nor one
    of the eight on/off operations, and it writes [display_mode]. *)
Lemma right_to_left_writes_display_mode :
  let s := mkLcd 1 2 3 4 5 6 0x08 0x04 0x02 in
  let s' := mkLcd 1 2 3 4 5 6 0x08 0x04 0x00 in
  call (fun _ : unit => []) RightToLeft s = Some (tt, s', send_events s' 0x04 0)
  /\ is_init (@RightToLeft unit) = false
  /\ on_off_toggle (@RightToLeft unit) = false
  /\ display_mode s' <> display_mode s.
Proof.
  intros s s'. repeat split; try reflexivity. cbn. discriminate.
Qed.

(** The formatting buffer: [lcd_write_int] is given a 32-bit number, and
    a number of ten digits does not fit [char str[10]] with its
    terminating zero. *)
Lemma lcd_write_int_overruns_buffer (s : lcd) :
  sprintf_d 1000000000
  = [0x31; 0x30; 0x30; 0x30; 0x30; 0x30; 0x30; 0x30; 0x30; 0x30]
  /\ lcd_write_int 1000000000 s = None.
Proof. split; reflexivity. Qed.

(** * Further properties *)

(** ** The ten flag operations as one *)

Lemma call_flag {F} (fmt : F -> list Z) (o : op F) r mask on s :
  flag_of o = Some (r, mask, on) ->
  call fmt o s
  = Some (tt, apply_flag r mask on s,
          send_events (apply_flag r mask on s)
                      (flag_command r (apply_flag r mask on s)) 0).
Proof.
  intros Hf.
  destruct o; try discriminate Hf; cbn [flag_of] in Hf;
    apply (f_equal (fun x => match x with Some y => y | None => (r, mask, on) end)) in Hf;
    cbn beta iota in Hf; inversion Hf; subst r mask on; cbn [call].
  - apply lcd_display_off_eq.
  - apply lcd_display_on_eq.
  - apply lcd_cursor_on_eq.
  - apply lcd_cursor_off_eq.
  - apply lcd_blink_on_eq.
  - apply lcd_blink_off_eq.
  - apply lcd_autoscroll_on_eq.
  - apply lcd_autoscroll_off_eq.
  - apply lcd_right_to_left_eq.
  - apply lcd_left_to_right_eq.
Qed.

Lemma flip_testbit mask on x n :
  0 <= n ->
  Z.testbit (flip mask on x) n
  = (n <? 8)
    && (if on then Z.testbit x n || Z.testbit mask n
        else Z.testbit x n && negb (Z.testbit mask n)).
Proof.
  intros Hn. unfold flip. rewrite u8_testbit by exact Hn.
  destruct on; [rewrite Z.lor_spec | rewrite Z.land_spec, Z.lnot_spec by exact Hn];
    reflexivity.
Qed.

Lemma flip_flip mask on1 on2 x :
  flip mask on2 (flip mask on1 x) = flip mask on2 x.
Proof.
  apply Z.bits_inj'. intros n Hn. rewrite !flip_testbit by exact Hn.
  destruct on1, on2, (n <? 8), (Z.testbit x n), (Z.testbit mask n); reflexivity.
Qed.

Lemma flip_comm m1 m2 on1 on2 x :
  Z.land m1 m2 = 0 ->
  flip m1 on1 (flip m2 on2 x) = flip m2 on2 (flip m1 on1 x).
Proof.
  intros Hd. apply Z.bits_inj'. intros n Hn. rewrite !flip_testbit by exact Hn.
  assert (Hx : Z.testbit m1 n && Z.testbit m2 n = false).
  { rewrite <- Z.land_spec, Hd. apply Z.bits_0. }
  destruct on1, on2, (n <? 8), (Z.testbit x n), (Z.testbit m1 n),
    (Z.testbit m2 n); try reflexivity; discriminate Hx.
Qed.

Lemma land_testbit_eq a b mask :
  (forall n, 0 <= n -> Z.testbit mask n = true -> Z.testbit a n = Z.testbit b n) ->
  Z.land a mask = Z.land b mask.
Proof.
  intros H. apply Z.bits_inj'. intros n Hn. rewrite !Z.land_spec.
  destruct (Z.testbit mask n) eqn:Hm.
  - rewrite (H n Hn Hm). reflexivity.
  - rewrite !andb_false_r. reflexivity.
Qed.

Lemma flip_own mask on x :
  u8 mask = mask ->
  Z.land (flip mask on x) mask = if on then mask else 0.
Proof.
  intros Hm. apply Z.bits_inj'. intros n Hn.
  rewrite Z.land_spec, flip_testbit by exact Hn.
  assert (Hb : Z.testbit mask n = (n <? 8) && Z.testbit mask n)
    by (rewrite <- u8_testbit, Hm by exact Hn; reflexivity).
  destruct on; [|rewrite Z.bits_0];
    destruct (n <? 8), (Z.testbit x n), (Z.testbit mask n);
    try reflexivity; discriminate Hb.
Qed.

Lemma flip_others mask on x other :
  Z.land other mask = 0 ->
  Z.land (flip mask on x) other = Z.land (u8 x) other.
Proof.
  intros Hd. apply Z.bits_inj'. intros n Hn.
  rewrite !Z.land_spec, flip_testbit, u8_testbit by exact Hn.
  assert (Hx : Z.testbit other n && Z.testbit mask n = false).
  { rewrite <- Z.land_spec, Hd. apply Z.bits_0. }
  destruct on, (n <? 8), (Z.testbit x n), (Z.testbit mask n),
    (Z.testbit other n); try reflexivity; discriminate Hx.
Qed.

Lemma flag_mask_byte {F} (o : op F) r mask on :
  flag_of o = Some (r, mask, on) -> u8 mask = mask.
Proof.
  intros Hf. destruct o; try discriminate Hf; inversion Hf; reflexivity.
Qed.

Lemma flag_masks_disjoint {F} (o1 o2 : op F) r m1 m2 on1 on2 :
  flag_of o1 = Some (r, m1, on1) ->
  flag_of o2 = Some (r, m2, on2) ->
  m1 <> m2 -> Z.land m1 m2 = 0.
Proof.
  intros H1 H2 Hne.
  destruct o1; try discriminate H1; destruct o2; try discriminate H2;
    inversion H1; inversion H2; subst;
    try reflexivity; try discriminate; exfalso; apply Hne; reflexivity.
Qed.

Lemma apply_flag_twice r mask on1 on2 s :
  apply_flag r mask on2 (apply_flag r mask on1 s) = apply_flag r mask on2 s.
Proof.
  destruct r; unfold apply_flag, set_display_control, set_display_mode;
    cbn [display_control display_mode rs_pin en_pin dat4_pin dat5_pin
         dat6_pin dat7_pin display_function];
    rewrite flip_flip; reflexivity.
Qed.

Lemma apply_flag_comm r1 m1 on1 r2 m2 on2 s :
  r1 <> r2 \/ Z.land m1 m2 = 0 ->
  apply_flag r1 m1 on1 (apply_flag r2 m2 on2 s)
  = apply_flag r2 m2 on2 (apply_flag r1 m1 on1 s).
Proof.
  intros H.
  destruct r1, r2; unfold apply_flag, set_display_control, set_display_mode;
    cbn [display_control display_mode rs_pin en_pin dat4_pin dat5_pin
         dat6_pin dat7_pin display_function];
    try reflexivity;
    (destruct H as [H | H]; [exfalso; apply H; reflexivity|]);
    rewrite (flip_comm m1 m2) by exact H; reflexivity.
Qed.

Lemma run_two {F} (fmt : F -> list Z) (o1 o2 : op F) s s1 t1 s2 t2 :
  call fmt o1 s = Some (tt, s1, t1) ->
  call fmt o2 s1 = Some (tt, s2, t2) ->
  run fmt [o1; o2] s = Some (tt, s2, t1 ++ t2).
Proof.
  intros H1 H2. cbn [run]. unfold bind. rewrite H1, H2. cbn [ret].
  rewrite app_nil_r. reflexivity.
Qed.

(** ** X1: a flag operation changes its own flag and nothing else *)

(** X1.  Each of the ten flag operations returns, and in the state it
    leaves: the pin numbers, [display_function] and the other flag byte
    are as before; its own mask is set (on) or cleared (off) in its flag
    byte; every other bit of that byte is as before. *)
Theorem flag_operation_touches_one_flag
    {F} (fmt : F -> list Z) (o : op F) (r : flag_reg) (mask : Z) (on : bool)
    (s : lcd) :
  flag_of o = Some (r, mask, on) ->
  exists s' tr,
    call fmt o s = Some (tt, s', tr)
    /\ (rs_pin s', en_pin s', dat4_pin s', dat5_pin s', dat6_pin s', dat7_pin s')
       = (rs_pin s, en_pin s, dat4_pin s, dat5_pin s, dat6_pin s, dat7_pin s)
    /\ display_function s' = display_function s
    /\ (forall r', r' <> r -> flag_byte r' s' = flag_byte r' s)
    /\ Z.land (flag_byte r s') mask = (if on then mask else 0)
    /\ (forall other, Z.land other mask = 0 ->
          Z.land (flag_byte r s') other = Z.land (u8 (flag_byte r s)) other).
Proof.
  intros Hf. pose proof (flag_mask_byte o r mask on Hf) as Hm.
  exists (apply_flag r mask on s). eexists.
  split; [apply call_flag; exact Hf|].
  destruct r; unfold apply_flag, set_display_control, set_display_mode;
    cbn [flag_byte display_control display_mode rs_pin en_pin dat4_pin
         dat5_pin dat6_pin dat7_pin display_function].
  - repeat split.
    + intros [] Hr; [exfalso; apply Hr|]; reflexivity.
    + apply flip_own. exact Hm.
    + intros other Ho. apply flip_others. exact Ho.
  - repeat split.
    + intros [] Hr; [|exfalso; apply Hr]; reflexivity.
    + apply flip_own. exact Hm.
    + intros other Ho. apply flip_others. exact Ho.
Qed.

(** Instance of X1: switching blink on while display and cursor are on. *)
Lemma flag_operation_touches_one_flag_witness :
  let s := mkLcd 1 2 3 4 5 6 0x08 0x06 0x02 in
  exists s' tr,
    lcd_blink_on s = Some (tt, s', tr)
    /\ display_mode s' = 0x02
    /\ Z.land (display_control s') LCD_BLINKON = LCD_BLINKON
    /\ Z.land (display_control s') 0x06 = 0x06.
Proof.
  intros s.
  destruct (flag_operation_touches_one_flag
              (fun _ : unit => []) BlinkOn Control LCD_BLINKON true s eq_refl)
    as (s' & tr & Hc & _ & _ & Hr & Hown & Hoth).
  exists s', tr. split; [exact Hc|].
  split; [exact (Hr Mode ltac:(discriminate))|].
  split; [exact Hown|].
  exact (Hoth 0x06 eq_refl).
Defined.

(** ** X2: on one flag, the last call wins *)

(** X2.  When two flag operations act on the same flag, calling the first
    and then the second leaves the state the second alone would leave, and
    the second emits the events it would emit alone; in particular
    repeating a flag operation repeats its transfer and changes nothing. *)
Theorem same_flag_last_call_wins
    {F} (fmt : F -> list Z) (o1 o2 : op F) (r : flag_reg) (mask : Z)
    (on1 on2 : bool) (s : lcd) :
  flag_of o1 = Some (r, mask, on1) ->
  flag_of o2 = Some (r, mask, on2) ->
  exists s1 t1 s2 t2,
    call fmt o1 s = Some (tt, s1, t1)
    /\ call fmt o2 s = Some (tt, s2, t2)
    /\ run fmt [o1; o2] s = Some (tt, s2, t1 ++ t2).
Proof.
  intros H1 H2.
  exists (apply_flag r mask on1 s). eexists.
  exists (apply_flag r mask on2 s). eexists.
  split; [apply call_flag; exact H1|].
  split; [apply call_flag; exact H2|].
  eapply run_two; [apply call_flag; exact H1|].
  rewrite (call_flag fmt o2 r mask on2 _ H2), apply_flag_twice. reflexivity.
Qed.

(** Instance of X2: display off, then display on. *)
Lemma same_flag_last_call_wins_witness :
  let s := mkLcd 1 2 3 4 5 6 0x08 0x04 0x02 in
  exists s1 t1 s2 t2,
    lcd_display_off s = Some (tt, s1, t1)
    /\ lcd_display_on s = Some (tt, s2, t2)
    /\ run (fun _ : unit => []) [DisplayOff; DisplayOn] s
       = Some (tt, s2, t1 ++ t2).
Proof.
  intros s.
  exact (same_flag_last_call_wins (fun _ : unit => []) DisplayOff DisplayOn
           Control LCD_DISPLAYON false true s eq_refl eq_refl).
Defined.

(** ** X3: operations on different flags commute *)

(** X3.  Two flag operations on different flags (another register, or
    another mask of the same register) lead to the same state in either
    order. *)
Theorem different_flags_commute
    {F} (fmt : F -> list Z) (o1 o2 : op F) (r1 r2 : flag_reg) (m1 m2 : Z)
    (on1 on2 : bool) (s : lcd) :
  flag_of o1 = Some (r1, m1, on1) ->
  flag_of o2 = Some (r2, m2, on2) ->
  r1 <> r2 \/ m1 <> m2 ->
  exists s' t12 t21,
    run fmt [o1; o2] s = Some (tt, s', t12)
    /\ run fmt [o2; o1] s = Some (tt, s', t21)
    /\ s' = apply_flag r2 m2 on2 (apply_flag r1 m1 on1 s).
Proof.
  intros H1 H2 Hne.
  assert (Hd : r2 <> r1 \/ Z.land m2 m1 = 0).
  { destruct r1, r2.
    - right. destruct Hne as [Hr | Hm]; [exfalso; apply Hr; reflexivity|].
      rewrite Z.land_comm. exact (flag_masks_disjoint o1 o2 _ _ _ _ _ H1 H2 Hm).
    - left. discriminate.
    - left. discriminate.
    - right. destruct Hne as [Hr | Hm]; [exfalso; apply Hr; reflexivity|].
      rewrite Z.land_comm. exact (flag_masks_disjoint o1 o2 _ _ _ _ _ H1 H2 Hm). }
  exists (apply_flag r2 m2 on2 (apply_flag r1 m1 on1 s)). eexists. eexists.
  split; [|split; [|reflexivity]].
  - eapply run_two; apply call_flag; assumption.
  - rewrite (apply_flag_comm r2 m2 on2 r1 m1 on1 s Hd).
    eapply run_two; apply call_flag; assumption.
Qed.

(** Instance of X3: cursor on and autoscroll on, in both orders. *)
Lemma different_flags_commute_witness :
  let s := mkLcd 1 2 3 4 5 6 0x08 0x04 0x02 in
  exists s' t12 t21,
    run (fun _ : unit => []) [CursorOn; AutoscrollOn] s = Some (tt, s', t12)
    /\ run (fun _ : unit => []) [AutoscrollOn; CursorOn] s = Some (tt, s', t21)
    /\ s' = mkLcd 1 2 3 4 5 6 0x08 0x06 0x03.
Proof.
  intros s.
  assert (Hne : Control <> Mode \/ LCD_CURSORON <> LCD_ENTRYSHIFTINCREMENT)
    by (left; discriminate).
  pose proof (different_flags_commute (fun _ : unit => []) CursorOn AutoscrollOn
                Control Mode LCD_CURSORON LCD_ENTRYSHIFTINCREMENT true true s)
    as H.
  specialize (H eq_refl). specialize (H eq_refl). specialize (H Hne).
  destruct H as (s' & t12 & t21 & H12 & H21 & Hs).
  exists s', t12, t21. split; [exact H12|]. split; [exact H21|].
  rewrite Hs. reflexivity.
Defined.

(** ** Levels and latching *)

Lemma wired_neq s :
  wired s ->
  rs_pin s <> en_pin s /\ rs_pin s <> dat4_pin s /\ rs_pin s <> dat5_pin s
  /\ rs_pin s <> dat6_pin s /\ rs_pin s <> dat7_pin s
  /\ en_pin s <> dat4_pin s /\ en_pin s <> dat5_pin s
  /\ en_pin s <> dat6_pin s /\ en_pin s <> dat7_pin s
  /\ dat4_pin s <> dat5_pin s /\ dat4_pin s <> dat6_pin s
  /\ dat4_pin s <> dat7_pin s /\ dat5_pin s <> dat6_pin s
  /\ dat5_pin s <> dat7_pin s /\ dat6_pin s <> dat7_pin s.
Proof.
  unfold wired, pins. intros H.
  repeat (apply NoDup_cons_iff in H as [? H]). cbn [In] in *.
  repeat split; intros E; intuition congruence.
Qed.

Ltac pin_eqb :=
  repeat match goal with
    | |- context [?a =? ?a] => rewrite (Z.eqb_refl a)
    | H : ?a <> ?b |- context [?a =? ?b] =>
        rewrite (proj2 (Z.eqb_neq a b) H)
    | H : ?a <> ?b |- context [?b =? ?a] =>
        rewrite (proj2 (Z.eqb_neq b a) (not_eq_sym H))
    end.

Lemma levels_after_app lv t1 t2 :
  levels_after lv (t1 ++ t2) = levels_after (levels_after lv t1) t2.
Proof. apply fold_left_app. Qed.

Lemma fold_latch s t :
  forall lv seen,
    fold_left (latch_step s) t (lv, seen)
    = (levels_after lv t, seen ++ latched s lv t).
Proof.
  unfold latched, levels_after.
  induction t as [|e t IH]; intros lv seen; cbn [fold_left].
  - rewrite app_nil_r. reflexivity.
  - unfold latch_step at 2 4. cbn [fst snd].
    destruct (c_true (lv (en_pin s)) && (drive lv e (en_pin s) =? 0)).
    + rewrite (IH _ (seen ++ _)), (IH _ ([] ++ _)). cbn [app].
      rewrite <- app_assoc. reflexivity.
    + rewrite (IH _ seen), (IH _ []). reflexivity.
Qed.

Lemma latched_app s lv t1 t2 :
  latched s lv (t1 ++ t2)
  = latched s lv t1 ++ latched s (levels_after lv t1) t2.
Proof.
  unfold latched at 1. rewrite fold_left_app, (fold_latch s t1 lv []).
  rewrite fold_latch. reflexivity.
Qed.

Lemma latched_cons s lv e t :
  latched s lv (e :: t)
  = latched s lv [e] ++ latched s (drive lv e) t.
Proof. apply (latched_app s lv [e] t). Qed.

(** No write to the enable pin, no latching. *)
Lemma latched_untouched s t :
  forallb (fun e => negb (touches (en_pin s) e)) t = true ->
  forall lv, latched s lv t = [].
Proof.
  induction t as [|e t IH]; intros Ht lv; [reflexivity|].
  cbn [forallb] in Ht. apply andb_true_iff in Ht as [He Ht].
  rewrite latched_cons, (IH Ht), app_nil_r.
  unfold latched. cbn [fold_left]. unfold latch_step. cbn [fst snd].
  assert (Hsame : drive lv e (en_pin s) = lv (en_pin s)).
  { destruct e as [p v| |]; cbn [drive]; try reflexivity.
    cbn [touches] in He. rewrite Z.eqb_sym.
    destruct (p =? en_pin s); [discriminate | reflexivity]. }
  rewrite Hsame. unfold c_true.
  destruct (lv (en_pin s) =? 0); reflexivity.
Qed.

Lemma latched_en_write s lv v :
  latched s lv [PinWrite (en_pin s) v]
  = if c_true (lv (en_pin s)) && (v =? 0)
    then [(drive lv (PinWrite (en_pin s) v) (rs_pin s),
           data_bus s (drive lv (PinWrite (en_pin s) v)))]
    else [].
Proof.
  unfold latched. cbn [fold_left]. unfold latch_step. cbn [fst snd].
  assert (Hv : drive lv (PinWrite (en_pin s) v) (en_pin s) = v)
    by (cbn [drive]; rewrite Z.eqb_refl; reflexivity).
  rewrite Hv. destruct (c_true (lv (en_pin s)) && (v =? 0)); reflexivity.
Qed.

Lemma latched_wait_us s lv n : latched s lv [DelayUs n] = [].
Proof. apply latched_untouched. reflexivity. Qed.

Lemma pulse_latches s lv :
  en_pin s <> rs_pin s -> en_pin s <> dat4_pin s -> en_pin s <> dat5_pin s ->
  en_pin s <> dat6_pin s -> en_pin s <> dat7_pin s ->
  lv (en_pin s) = 0 ->
  latched s lv (pulse_events s) = [(lv (rs_pin s), data_bus s lv)]
  /\ levels_after lv (pulse_events s) (en_pin s) = 0
  /\ (forall q, q <> en_pin s -> levels_after lv (pulse_events s) q = lv q).
Proof.
  intros Hr H4 H5 H6 H7 Hlow. split; [|split].
  - unfold pulse_events.
    rewrite latched_cons, latched_en_write, Hlow.
    rewrite latched_cons, latched_wait_us.
    rewrite latched_cons, latched_en_write.
    rewrite latched_cons, latched_wait_us.
    rewrite latched_cons, latched_en_write.
    rewrite latched_wait_us.
    unfold data_bus. cbn [drive c_true Z.eqb negb andb app]. pin_eqb.
    rewrite andb_false_r. cbn [c_true Z.eqb negb andb app]. reflexivity.
  - unfold levels_after, pulse_events. cbn [fold_left drive]. pin_eqb.
    reflexivity.
  - intros q Hq. unfold levels_after, pulse_events. cbn [fold_left drive].
    pin_eqb. reflexivity.
Qed.

Lemma data_levels s n lv :
  dat4_pin s <> dat5_pin s -> dat4_pin s <> dat6_pin s ->
  dat4_pin s <> dat7_pin s -> dat5_pin s <> dat6_pin s ->
  dat5_pin s <> dat7_pin s -> dat6_pin s <> dat7_pin s ->
  data_bus s (levels_after lv (data_events s n)) = nibble_value n
  /\ (forall q, q <> dat4_pin s -> q <> dat5_pin s -> q <> dat6_pin s ->
        q <> dat7_pin s -> levels_after lv (data_events s n) q = lv q).
Proof.
  intros H45 H46 H47 H56 H57 H67.
  unfold levels_after, data_events, data_bus, nibble_value.
  cbn [fold_left drive]. pin_eqb. split; [reflexivity|].
  intros q Q4 Q5 Q6 Q7. pin_eqb. reflexivity.
Qed.

Lemma data_events_untouched s n q :
  q <> dat4_pin s -> q <> dat5_pin s -> q <> dat6_pin s -> q <> dat7_pin s ->
  forallb (fun e => negb (touches q e)) (data_events s n) = true.
Proof.
  intros H4 H5 H6 H7. cbn [data_events forallb touches].
  pin_eqb. reflexivity.
Qed.

(** One nibble transmission, seen from the controller. *)
Lemma nibble_latches s n lv :
  wired s -> lv (en_pin s) = 0 ->
  latched s lv (nibble_events s n) = [(lv (rs_pin s), nibble_value n)]
  /\ levels_after lv (nibble_events s n) (en_pin s) = 0
  /\ levels_after lv (nibble_events s n) (rs_pin s) = lv (rs_pin s)
  /\ data_bus s (levels_after lv (nibble_events s n)) = nibble_value n.
Proof.
  intros Hw Hlow.
  destruct (wired_neq s Hw)
    as (Re & R4 & R5 & R6 & R7 & E4 & E5 & E6 & E7 & D45 & D46 & D47 & D56
        & D57 & D67).
  destruct (data_levels s n lv D45 D46 D47 D56 D57 D67) as [Hbus Hkeep].
  set (lv1 := levels_after lv (data_events s n)) in *.
  assert (Hlow1 : lv1 (en_pin s) = 0) by (rewrite Hkeep; assumption).
  assert (Hrs1 : lv1 (rs_pin s) = lv (rs_pin s)) by (apply Hkeep; assumption).
  destruct (pulse_latches s lv1 (not_eq_sym Re) E4 E5 E6 E7 Hlow1)
    as (Hl & He & Hq).
  unfold nibble_events. rewrite latched_app, levels_after_app.
  fold lv1. rewrite Hl, latched_untouched, Hrs1, Hbus
    by (apply data_events_untouched; assumption).
  split; [reflexivity|]. split; [exact He|].
  split; [rewrite Hq by assumption; exact Hrs1|].
  unfold data_bus. rewrite !Hq by (apply not_eq_sym; assumption).
  exact Hbus.
Qed.

Lemma byte_nibbles x :
  nibble_value (Z.land (Z.shiftr x 4) 0xF) = u8 x / 16
  /\ nibble_value (Z.land x 0xF) = u8 x mod 16.
Proof.
  rewrite !nibble_value_mod16, !low4_mod16, !Z.mod_mod by lia.
  rewrite Z.shiftr_div_pow2 by lia. change (2 ^ 4) with 16.
  unfold u8. change 256 with (16 * 16). rewrite Z.rem_mul_r by lia.
  pose proof (Z.mod_pos_bound x 16 ltac:(lia)) as Ha.
  pose proof (Z.mod_pos_bound (x / 16) 16 ltac:(lia)) as Hb.
  split.
  - apply (Z.div_unique _ 16 _ (x mod 16)); lia.
  - apply (Z.mod_unique _ 16 ((x / 16) mod 16) _); lia.
Qed.

(** One byte transfer, seen from the controller. *)
Lemma send_latches s v m lv :
  wired s -> lv (en_pin s) = 0 ->
  latched s lv (send_events s v m) = [(m, u8 v / 16); (m, u8 v mod 16)]
  /\ levels_after lv (send_events s v m) (en_pin s) = 0
  /\ levels_after lv (send_events s v m) (rs_pin s) = m
  /\ data_bus s (levels_after lv (send_events s v m)) = u8 v mod 16.
Proof.
  intros Hw Hlow.
  destruct (wired_neq s Hw) as (Re & _).
  destruct (byte_nibbles v) as [Hhi Hlo].
  set (lv0 := drive lv (PinWrite (rs_pin s) m)).
  assert (H0e : lv0 (en_pin s) = 0).
  { unfold lv0. cbn [drive]. pin_eqb. exact Hlow. }
  assert (H0r : lv0 (rs_pin s) = m).
  { unfold lv0. cbn [drive]. pin_eqb. reflexivity. }
  destruct (nibble_latches s (Z.land (Z.shiftr v 4) 0xF) lv0 Hw H0e)
    as (L1 & E1 & R1 & _).
  set (lv1 := levels_after lv0 (nibble_events s (Z.land (Z.shiftr v 4) 0xF)))
    in *.
  destruct (nibble_latches s (Z.land v 0xF) lv1 Hw E1) as (L2 & E2 & R2 & B2).
  assert (Hfirst : latched s lv [PinWrite (rs_pin s) m] = []).
  { apply latched_untouched. cbn [forallb touches]. pin_eqb. reflexivity. }
  assert (Hall : forall q,
            levels_after lv (send_events s v m) q
            = levels_after lv1 (nibble_events s (Z.land v 0xF)) q).
  { intros q. unfold send_events, levels_after at 1. cbn [fold_left].
    fold lv0. fold (levels_after lv0
                      (nibble_events s (Z.land (Z.shiftr v 4) 0xF)
                       ++ nibble_events s (Z.land v 0xF))).
    rewrite levels_after_app. reflexivity. }
  unfold data_bus. rewrite !Hall.
  fold (data_bus s (levels_after lv1 (nibble_events s (Z.land v 0xF)))).
  unfold send_events. rewrite latched_cons, Hfirst. cbn [app]. fold lv0.
  rewrite latched_app.
  fold lv1. rewrite L1, L2, R1, H0r, Hhi, Hlo.
  split; [reflexivity|].
  split; [exact E2|].
  split; [rewrite R2, R1; exact H0r|].
  rewrite B2. exact Hlo.
Qed.

(** ** X4: a byte transfer as the controller sees it *)

(** X4.  With every line on a pin of its own and the enable line low when
    the call begins, the enable line falls exactly twice during
    [lcd_send v m]: the first time with register select at [m] and the
    high nibble of the byte on the data lines, the second time with
    register select at [m] and the low nibble.  The call leaves the
    enable line low, register select at [m] and the low nibble on the
    data lines. *)
Theorem lcd_send_latched (v m : Z) (s : lcd) (lv : Z -> Z) :
  wired s -> lv (en_pin s) = 0 ->
  exists t,
    lcd_send v m s = Some (tt, s, t)
    /\ latched s lv t = [(m, u8 v / 16); (m, u8 v mod 16)]
    /\ levels_after lv t (en_pin s) = 0
    /\ levels_after lv t (rs_pin s) = m
    /\ data_bus s (levels_after lv t) = u8 v mod 16.
Proof.
  intros Hw Hlow. exists (send_events s v m).
  split; [apply lcd_send_eq|]. apply send_latches; assumption.
Qed.

(** Instance of X4: the letter H to the data register, pins 1..6, all
    lines low before the call. *)
Lemma lcd_send_latched_witness :
  let s := mkLcd 1 2 3 4 5 6 0 0 0 in
  exists t,
    lcd_send 0x48 1 s = Some (tt, s, t)
    /\ latched s (fun _ => 0) t = [(1, 4); (1, 8)].
Proof.
  intros s.
  assert (Hw : wired s).
  { unfold wired, pins. cbn.
    repeat (apply NoDup_cons; [cbn; intuition discriminate|]).
    apply NoDup_nil. }
  destruct (lcd_send_latched 0x48 1 s (fun _ => 0) Hw eq_refl)
    as (t & Hs & Hl & _).
  exists t. split; [exact Hs | exact Hl].
Defined.

(** ** X5: a nibble written while the enable line is high *)

(** X5.  [lcd_write_data] begins its pulse by driving the enable line
    low.  When that line is high as the call begins (and has a pin of its
    own), this is a falling edge too: the controller takes the nibble in
    twice, once at the first write to the enable pin and once at the end
    of the pulse. *)
Theorem lcd_write_data_latched_twice (data : Z) (s : lcd) (lv : Z -> Z) :
  wired s -> c_true (lv (en_pin s)) = true ->
  exists t,
    lcd_write_data data s = Some (tt, s, t)
    /\ latched s lv t
       = [(lv (rs_pin s), nibble_value data); (lv (rs_pin s), nibble_value data)].
Proof.
  intros Hw Hhigh. exists (nibble_events s data).
  split; [apply lcd_write_data_eq|].
  destruct (wired_neq s Hw)
    as (Re & R4 & R5 & R6 & R7 & E4 & E5 & E6 & E7 & D45 & D46 & D47 & D56
        & D57 & D67).
  destruct (data_levels s data lv D45 D46 D47 D56 D57 D67) as [Hbus Hkeep].
  set (lv1 := levels_after lv (data_events s data)) in *.
  assert (He1 : lv1 (en_pin s) = lv (en_pin s)) by (apply Hkeep; assumption).
  assert (Hr1 : lv1 (rs_pin s) = lv (rs_pin s)) by (apply Hkeep; assumption).
  unfold nibble_events. rewrite latched_app. fold lv1.
  rewrite latched_untouched by (apply data_events_untouched; assumption).
  unfold pulse_events.
  rewrite latched_cons, latched_en_write, He1, Hhigh.
  rewrite latched_cons, latched_wait_us.
  rewrite latched_cons, latched_en_write.
  rewrite latched_cons, latched_wait_us.
  rewrite latched_cons, latched_en_write.
  rewrite latched_wait_us.
  unfold data_bus in *. cbn [drive c_true Z.eqb negb andb app]. pin_eqb.
  rewrite andb_false_r. cbn [c_true Z.eqb negb andb app].
  rewrite Hr1, Hbus. reflexivity.
Qed.

(** Instance of X5: nibble 0x3 with all lines high before the call. *)
Lemma lcd_write_data_latched_twice_witness :
  let s := mkLcd 1 2 3 4 5 6 0 0 0 in
  exists t,
    lcd_write_data 0x03 s = Some (tt, s, t)
    /\ latched s (fun _ => 1) t = [(1, 3); (1, 3)].
Proof.
  intros s.
  assert (Hw : wired s).
  { unfold wired, pins. cbn.
    repeat (apply NoDup_cons; [cbn; intuition discriminate|]).
    apply NoDup_nil. }
  destruct (lcd_write_data_latched_twice 0x03 s (fun _ => 1) Hw eq_refl)
    as (t & Hs & Hl).
  exists t. split; [exact Hs | exact Hl].
Defined.

(** ** The shape of an operation's trace *)

Lemma pins_fields s s' :
  pins s' = pins s ->
  rs_pin s' = rs_pin s /\ en_pin s' = en_pin s /\ dat4_pin s' = dat4_pin s
  /\ dat5_pin s' = dat5_pin s /\ dat6_pin s' = dat6_pin s
  /\ dat7_pin s' = dat7_pin s.
Proof. unfold pins. intros H. inversion H. auto 10. Qed.

Lemma send_events_pins s s' v m :
  pins s' = pins s -> send_events s' v m = send_events s v m.
Proof.
  intros H. destruct (pins_fields s s' H) as (Hr & He & H4 & H5 & H6 & H7).
  unfold send_events, nibble_events, data_events, pulse_events.
  rewrite Hr, He, H4, H5, H6, H7. reflexivity.
Qed.

Lemma framed_pins s s' t : pins s' = pins s -> framed s t -> framed s' t.
Proof.
  intros Hp Ht. induction Ht as [|v m t Hm _ IH|t _ IH].
  - constructor.
  - rewrite <- (send_events_pins s s' v m Hp). constructor; assumption.
  - constructor. exact IH.
Qed.

Lemma framed_app s t1 t2 : framed s t1 -> framed s t2 -> framed s (t1 ++ t2).
Proof.
  intros H1 H2. induction H1 as [|v m t Hm _ IH|t _ IH]; cbn [app].
  - exact H2.
  - rewrite <- app_assoc. constructor; assumption.
  - constructor. exact IH.
Qed.

Lemma framed_one s v m : m = 0 \/ m = 1 -> framed s (send_events s v m).
Proof.
  intros Hm. rewrite <- (app_nil_r (send_events s v m)).
  constructor; [exact Hm | constructor].
Qed.

Lemma framed_data s chars :
  framed s (flat_map (fun c => send_events s (u8 c) 1) chars).
Proof.
  induction chars as [|c chars IH]; cbn [flat_map]; constructor; auto.
Qed.

Lemma call_framed {F} (fmt : F -> list Z) (o : op F) s s' tr :
  is_init o = false ->
  call fmt o s = Some (tt, s', tr) ->
  pins s' = pins s /\ framed s' tr.
Proof.
  intros Hi H.
  destruct (flag_of o) as [[[r mask] on]|] eqn:Hf.
  - rewrite (call_flag fmt o r mask on s Hf) in H.
    apply result_inv in H as (_ & -> & ->).
    split; [destruct r; reflexivity|]. apply framed_one. left. reflexivity.
  - destruct o; try discriminate Hf; try discriminate Hi; cbn [call] in H.
    + rewrite lcd_clear_eq in H. apply result_inv in H as (_ & -> & ->).
      split; [reflexivity|]. constructor; [left; reflexivity|].
      repeat constructor.
    + rewrite lcd_home_eq in H. apply result_inv in H as (_ & -> & ->).
      split; [reflexivity|]. constructor; [left; reflexivity|].
      repeat constructor.
    + rewrite lcd_shift_left_eq in H. apply result_inv in H as (_ & -> & ->).
      split; [reflexivity|]. apply framed_one. left. reflexivity.
    + rewrite lcd_shift_right_eq in H. apply result_inv in H as (_ & -> & ->).
      split; [reflexivity|]. apply framed_one. left. reflexivity.
    + apply lcd_set_cursor_inv in H as (-> & x & ->).
      split; [reflexivity|]. apply framed_one. left. reflexivity.
    + rewrite lcd_write_char_eq in H. apply result_inv in H as (_ & -> & ->).
      split; [reflexivity|]. apply framed_one. right. reflexivity.
    + apply lcd_write_string_inv in H as (-> & chars & _ & ->).
      split; [reflexivity|]. apply framed_data.
    + apply formatted_write_inv in H as (-> & chars & ->).
      split; [reflexivity|]. apply framed_data.
    + apply formatted_write_inv in H as (-> & chars & ->).
      split; [reflexivity|]. apply framed_data.
Qed.

Lemma run_framed {F} (fmt : F -> list Z) (ops : list (op F)) :
  Forall (fun o => is_init o = false) ops ->
  forall s s' tr,
    run fmt ops s = Some (tt, s', tr) ->
    pins s' = pins s /\ framed s' tr.
Proof.
  induction 1 as [|o ops Ho _ IH]; intros s s' tr Hrun; cbn [run] in Hrun.
  - apply result_inv in Hrun as (_ & -> & ->). split; [reflexivity|constructor].
  - apply bind_inv in Hrun as ([] & s1 & t1 & t2 & Hc & Hr & ->).
    apply (call_framed fmt o s s1 t1 Ho) in Hc as [Hp1 Hf1].
    apply IH in Hr as [Hp2 Hf2].
    split; [congruence|].
    apply framed_app; [|exact Hf2].
    apply (framed_pins s1 s' t1 Hp2 Hf1).
Qed.

Lemma latched_wait_ms s lv n t : latched s lv (DelayMs n :: t) = latched s lv t.
Proof.
  rewrite latched_cons.
  rewrite (latched_untouched s [DelayMs n] eq_refl). reflexivity.
Qed.

Lemma latched_framed s t :
  wired s -> framed s t ->
  forall lv, lv (en_pin s) = 0 ->
    latched s lv t = nibbles_of (bus_monitor t)
    /\ levels_after lv t (en_pin s) = 0.
Proof.
  intros Hw Ht. induction Ht as [|v m t Hm _ IH|t _ IH]; intros lv Hlow.
  - split; [reflexivity | exact Hlow].
  - destruct (send_latches s v m lv Hw Hlow) as (Hl & He & _).
    destruct (IH _ He) as [IHl IHe].
    rewrite latched_app, levels_after_app, monitor_send, Hl, IHl.
    split; [reflexivity | exact IHe].
  - destruct (IH lv Hlow) as [IHl IHe].
    rewrite latched_wait_ms. split; [exact IHl | exact IHe].
Qed.

(** ** X6: a program as the controller sees it *)

(** X6.  Take a program of public operations other than [lcd_init], run
    from a state whose six lines have pins of their own, with the enable
    line low at the start.  What the controller takes in on the falling
    edges of the enable line is exactly the bytes the driver transfers,
    each as its high nibble and then its low nibble with the register
    select of the transfer; and the enable line is low again at the end. *)
Theorem program_latched
    {F} (fmt : F -> list Z) (ops : list (op F)) (s s' : lcd) (tr : trace)
    (lv : Z -> Z) :
  wired s -> lv (en_pin s) = 0 ->
  Forall (fun o => is_init o = false) ops ->
  run fmt ops s = Some (tt, s', tr) ->
  latched s lv tr = nibbles_of (bus_monitor tr)
  /\ levels_after lv tr (en_pin s) = 0.
Proof.
  intros Hw Hlow Hops Hrun.
  destruct (run_framed fmt ops Hops s s' tr Hrun) as [Hp Hf].
  apply latched_framed; [exact Hw | | exact Hlow].
  apply (framed_pins s' s tr); [symmetry; exact Hp | exact Hf].
Qed.

(** Instance of X6: cursor on, then the text "Hi", then clear. *)
Lemma program_latched_witness :
  let s := mkLcd 1 2 3 4 5 6 0x08 0x04 0x02 in
  match
    run (fun _ : unit => []) [CursorOn; WriteString [0x48; 0x69; 0]; Clear] s
  with
  | Some (_, _, tr) =>
      latched s (fun _ => 0) tr
      = [(0, 0); (0, 14); (1, 4); (1, 8); (1, 6); (1, 9); (0, 0); (0, 1)]
  | None => False
  end.
Proof.
  intros s.
  assert (Hw : wired s).
  { unfold wired, pins. cbn.
    repeat (apply NoDup_cons; [cbn; intuition discriminate|]).
    apply NoDup_nil. }
  assert (Hops : Forall (fun o : op unit => is_init o = false)
                   [CursorOn; WriteString [0x48; 0x69; 0]; Clear])
    by (repeat constructor).
  destruct (run _ _ s) as [[[[] s'] tr]|] eqn:E.
  - destruct (program_latched _ _ s s' tr (fun _ => 0) Hw eq_refl Hops E)
      as [Hl _].
    rewrite Hl. vm_compute in E. inversion E. reflexivity.
  - vm_compute in E. discriminate E.
Defined.

(** ** X7: the power-on sequence as the controller sees it *)

Lemma nibble_then s n t lv r :
  wired s -> lv (en_pin s) = 0 -> lv (rs_pin s) = r ->
  exists lv',
    lv' (en_pin s) = 0 /\ lv' (rs_pin s) = r
    /\ latched s lv (nibble_events s n ++ t)
       = (r, nibble_value n) :: latched s lv' t
    /\ levels_after lv (nibble_events s n ++ t) = levels_after lv' t.
Proof.
  intros Hw Hlow Hrs.
  destruct (nibble_latches s n lv Hw Hlow) as (Hl & He & Hr & _).
  exists (levels_after lv (nibble_events s n)).
  rewrite latched_app, levels_after_app, Hl, Hr, Hrs. auto.
Qed.

Lemma send_then s v m t lv :
  wired s -> lv (en_pin s) = 0 ->
  exists lv',
    lv' (en_pin s) = 0
    /\ latched s lv (send_events s v m ++ t)
       = (m, u8 v / 16) :: (m, u8 v mod 16) :: latched s lv' t
    /\ levels_after lv (send_events s v m ++ t) = levels_after lv' t.
Proof.
  intros Hw Hlow.
  destruct (send_latches s v m lv Hw Hlow) as (Hl & He & _).
  exists (levels_after lv (send_events s v m)).
  rewrite latched_app, levels_after_app, Hl. auto.
Qed.

Lemma latched_wait_us_cons s lv n t :
  latched s lv (DelayUs n :: t) = latched s lv t.
Proof.
  rewrite latched_cons, latched_wait_us. reflexivity.
Qed.

Lemma init_latches s lv :
  wired s -> lv (en_pin s) = 0 ->
  latched s lv (init_events s)
  = [(0, 3); (0, 3); (0, 3); (0, 2);
     (0, 2); (0, 8); (0, 0); (0, 12); (0, 0); (0, 1); (0, 0); (0, 6)]
  /\ levels_after lv (init_events s) (en_pin s) = 0.
Proof.
  intros Hw Hlow. destruct (wired_neq s Hw) as (Re & _).
  unfold init_events. cbn [app].
  rewrite latched_wait_ms.
  change (levels_after lv (DelayMs 50 :: ?t)) with (levels_after lv t).
  rewrite latched_cons.
  assert (Hfirst : latched s lv [PinWrite (rs_pin s) 0] = []).
  { apply latched_untouched. cbn [forallb touches]. pin_eqb. reflexivity. }
  rewrite Hfirst. cbn [app].
  set (lv0 := drive lv (PinWrite (rs_pin s) 0)).
  assert (H0e : lv0 (en_pin s) = 0).
  { unfold lv0. cbn [drive]. pin_eqb. exact Hlow. }
  assert (H0r : lv0 (rs_pin s) = 0).
  { unfold lv0. cbn [drive]. pin_eqb. reflexivity. }
  assert (Hlev : forall t,
            levels_after lv (PinWrite (rs_pin s) 0 :: t)
            = levels_after lv0 t) by reflexivity.
  rewrite Hlev. clear Hlev Hfirst.
  match goal with
  | |- context [latched s lv0 (nibble_events s ?n ++ ?t)] =>
      destruct (nibble_then s n t lv0 0 Hw H0e H0r)
        as (lv1 & H1e & H1r & L1 & V1)
  end.
  rewrite L1, V1. rewrite latched_wait_ms.
  change (levels_after lv1 (DelayMs 5 :: ?t)) with (levels_after lv1 t).
  match goal with
  | |- context [latched s lv1 (nibble_events s ?n ++ ?t)] =>
      destruct (nibble_then s n t lv1 0 Hw H1e H1r)
        as (lv2 & H2e & H2r & L2 & V2)
  end.
  rewrite L2, V2. rewrite latched_wait_ms.
  change (levels_after lv2 (DelayMs 5 :: ?t)) with (levels_after lv2 t).
  match goal with
  | |- context [latched s lv2 (nibble_events s ?n ++ ?t)] =>
      destruct (nibble_then s n t lv2 0 Hw H2e H2r)
        as (lv3 & H3e & H3r & L3 & V3)
  end.
  rewrite L3, V3. rewrite latched_wait_us_cons.
  change (levels_after lv3 (DelayUs 150 :: ?t)) with (levels_after lv3 t).
  match goal with
  | |- context [latched s lv3 (nibble_events s ?n ++ ?t)] =>
      destruct (nibble_then s n t lv3 0 Hw H3e H3r)
        as (lv4 & H4e & H4r & L4 & V4)
  end.
  rewrite L4, V4.
  match goal with
  | |- context [latched s lv4 (send_events s ?v ?m ++ ?t)] =>
      destruct (send_then s v m t lv4 Hw H4e) as (lv5 & H5e & L5 & V5)
  end.
  rewrite L5, V5.
  match goal with
  | |- context [latched s lv5 (send_events s ?v ?m ++ ?t)] =>
      destruct (send_then s v m t lv5 Hw H5e) as (lv6 & H6e & L6 & V6)
  end.
  rewrite L6, V6.
  match goal with
  | |- context [latched s lv6 (send_events s ?v ?m ++ ?t)] =>
      destruct (send_then s v m t lv6 Hw H6e) as (lv7 & H7e & L7 & V7)
  end.
  rewrite L7, V7. rewrite latched_wait_ms.
  change (levels_after lv7 (DelayMs 2 :: ?t)) with (levels_after lv7 t).
  destruct (send_latches s 0x06 0 lv7 Hw H7e) as (L8 & E8 & _).
  rewrite L8, E8. split; reflexivity.
Qed.

(** X7.  When the six arguments of [lcd_init] are six different pin
    numbers and the enable line is low at the start, the controller takes
    in, all with register select low: the nibble 3 three times and the
    nibble 2 (the reset into 4-bit mode), then high and low nibble of
    0x28, 0x0C, 0x01 and 0x06; the enable line is low at the end. *)
Theorem lcd_init_latched
    (rs en d4 d5 d6 d7 : Z) (s : lcd) (lv : Z -> Z) :
  NoDup [rs; en; d4; d5; d6; d7] -> lv en = 0 ->
  exists s' t,
    lcd_init rs en d4 d5 d6 d7 s = Some (tt, s', t)
    /\ latched s' lv t
       = [(0, 3); (0, 3); (0, 3); (0, 2);
          (0, 2); (0, 8); (0, 0); (0, 12); (0, 0); (0, 1); (0, 0); (0, 6)]
    /\ levels_after lv t en = 0.
Proof.
  intros Hw Hlow. eexists. eexists.
  split; [apply lcd_init_eq|]. cbv zeta.
  apply (init_latches (mkLcd rs en d4 d5 d6 d7 0x08 0x04 0x02) lv Hw Hlow).
Qed.

(** Instance of X7: pins 1..6, all lines low before the call. *)
Lemma lcd_init_latched_witness :
  exists s' t,
    lcd_init 1 2 3 4 5 6 lcd_boot = Some (tt, s', t)
    /\ latched s' (fun _ => 0) t
       = [(0, 3); (0, 3); (0, 3); (0, 2);
          (0, 2); (0, 8); (0, 0); (0, 12); (0, 0); (0, 1); (0, 0); (0, 6)].
Proof.
  assert (Hw : NoDup [1; 2; 3; 4; 5; 6]).
  { repeat (apply NoDup_cons; [cbn; intuition discriminate|]).
    apply NoDup_nil. }
  destruct (lcd_init_latched 1 2 3 4 5 6 lcd_boot (fun _ => 0) Hw eq_refl)
    as (s' & t & Hi & Hl & _).
  exists s', t. split; [exact Hi | exact Hl].
Defined.

(** ** X8: which pins are driven, and to what *)

Lemma bit_level_01 n k : bit_level n k = 0 \/ bit_level n k = 1.
Proof. unfold bit_level. destruct (Z.testbit n k); auto. Qed.

Lemma tidy_nibble s n : Forall (tidy_event s) (nibble_events s n).
Proof.
  unfold nibble_events, data_events, pulse_events. cbn [app].
  repeat (apply Forall_cons;
          [cbn [tidy_event pins In]; auto 10 using bit_level_01|]).
  apply Forall_nil.
Qed.

Lemma tidy_send s v m :
  m = 0 \/ m = 1 -> Forall (tidy_event s) (send_events s v m).
Proof.
  intros Hm. unfold send_events. constructor.
  - split; [cbn [pins In]; auto | exact Hm].
  - apply Forall_app. split; apply tidy_nibble.
Qed.

Lemma tidy_framed s t : framed s t -> Forall (tidy_event s) t.
Proof.
  induction 1 as [|v m t Hm _ IH|t _ IH].
  - constructor.
  - apply Forall_app. split; [apply tidy_send; exact Hm | exact IH].
  - constructor; [exact I | exact IH].
Qed.

Lemma tidy_init s : Forall (tidy_event s) (init_events s).
Proof.
  unfold init_events.
  repeat (apply Forall_app; split);
    try apply tidy_nibble; try (apply tidy_send; left; reflexivity);
    repeat (apply Forall_cons; [cbn [tidy_event pins In]; auto 10|]);
    apply Forall_nil.
Qed.

(** X8.  Whatever public operation is called, every pin write it makes
    goes to one of the six pins the driver holds when the call returns
    (for [lcd_init]: the six it was just given), and drives it to 0 or
    to 1. *)
Theorem operations_drive_only_their_pins
    {F} (fmt : F -> list Z) (o : op F) (s s' : lcd) (tr : trace) :
  call fmt o s = Some (tt, s', tr) ->
  Forall (tidy_event s') tr
  /\ (is_init o = false -> pins s' = pins s).
Proof.
  intros H. destruct (is_init o) eqn:Hi.
  - split; [|discriminate].
    destruct o; try discriminate Hi. cbn [call] in H.
    rewrite lcd_init_eq in H. cbv zeta in H.
    apply result_inv in H as (_ & -> & ->). apply tidy_init.
  - destruct (call_framed fmt o s s' tr Hi H) as [Hp Hf].
    split; [apply tidy_framed; exact Hf | intros _; exact Hp].
Qed.

(** Instance of X8: setting the cursor. *)
Lemma operations_drive_only_their_pins_witness :
  let s := mkLcd 1 2 3 4 5 6 0x08 0x04 0x02 in
  match lcd_set_cursor 5 1 s with
  | Some (_, s', tr) => Forall (tidy_event s') tr /\ pins s' = [1; 2; 3; 4; 5; 6]
  | None => False
  end.
Proof.
  intros s.
  destruct (lcd_set_cursor 5 1 s) as [[[[] s'] tr]|] eqn:E.
  - destruct (operations_drive_only_their_pins
                (fun _ : unit => []) (SetCursor 5 1) s s' tr E) as [Ht Hp].
    split; [exact Ht | exact (Hp eq_refl)].
  - vm_compute in E. discriminate E.
Defined.

(** ** X9: how long an operation waits *)




Lemma monitor_one s v m : bus_monitor (send_events s v m) = [(m, u8 v)].
Proof.
  rewrite <- (app_nil_r (send_events s v m)), monitor_send. reflexivity.
Qed.




(** ** X10: every operation ends on a wait *)

Lemma send_events_last s v m :
  exists t, send_events s v m = t ++ [DelayUs 100].
Proof.
  exists (removelast (send_events s v m)). reflexivity.
Qed.

Lemma framed_last s t :
  framed s t ->
  t = [] \/ exists t' w, t = t' ++ [w] /\ 100 <= wait_us w.
Proof.
  induction 1 as [|v m t Hm _ IH|t _ IH]; [left; reflexivity| |]; right.
  - destruct IH as [-> | (t' & w & -> & Hw)].
    + destruct (send_events_last s v m) as [t0 ->].
      exists t0, (DelayUs 100). rewrite app_nil_r. split; [reflexivity|].
      cbn [wait_us]. lia.
    + exists (send_events s v m ++ t'), w.
      rewrite app_assoc. split; [reflexivity | exact Hw].
  - destruct IH as [-> | (t' & w & -> & Hw)].
    + exists [], (DelayMs 2). split; [reflexivity|]. cbn [wait_us]. lia.
    + exists (DelayMs 2 :: t'), w. split; [reflexivity | exact Hw].
Qed.

(** X10.  A public operation that emits anything at all returns only
    after a final wait of at least 100 microseconds, with no pin write
    after it: the next operation never drives a pin sooner than 100
    microseconds after the last enable pulse. *)
Theorem operations_end_on_a_wait
    {F} (fmt : F -> list Z) (o : op F) (s s' : lcd) (tr : trace) :
  call fmt o s = Some (tt, s', tr) ->
  tr <> [] ->
  exists t' w, tr = t' ++ [w] /\ 100 <= wait_us w.
Proof.
  intros H Hne. destruct (is_init o) eqn:Hi.
  - destruct o; try discriminate Hi. cbn [call] in H.
    rewrite lcd_init_eq in H. cbv zeta in H.
    apply result_inv in H as (_ & -> & ->).
    exists (removelast (init_events (mkLcd rs en dat4 dat5 dat6 dat7 8 4 2))),
      (DelayUs 100).
    split; [reflexivity | cbn [wait_us]; lia].
  - destruct (call_framed fmt o s s' tr Hi H) as [_ Hf].
    destruct (framed_last s' tr Hf) as [-> | Hl]; [contradiction | exact Hl].
Qed.

(** Instance of X10: [lcd_home] ends on its 2 ms wait. *)
Lemma operations_end_on_a_wait_witness :
  let s := mkLcd 1 2 3 4 5 6 0x08 0x04 0x02 in
  exists t' w,
    lcd_home s = Some (tt, s, t' ++ [w]) /\ 100 <= wait_us w.
Proof.
  intros s.
  assert (Hne : send_events s LCD_RETURNHOME 0 ++ [DelayMs 2] <> [])
    by discriminate.
  destruct (operations_end_on_a_wait (fun _ : unit => []) Home s s _
              (lcd_home_eq s) Hne) as (t' & w & Ht & Hw).
  exists t', w. split; [|exact Hw].
  rewrite <- Ht. apply lcd_home_eq.
Defined.

(** ** X11: strings, character by character *)

Lemma run_write_chars {F} (fmt : F -> list Z) (chars : list Z) s :
  run fmt (map WriteChar chars) s
  = Some (tt, s, flat_map (fun c => send_events s (u8 c) 1) chars).
Proof.
  induction chars as [|c chars IH]; [reflexivity|].
  cbn [map run call flat_map]. unfold bind.
  rewrite lcd_write_char_eq, IH. reflexivity.
Qed.

(** X11.  Writing a string emits what one [lcd_write_char] call per
    character emits, and nothing when the string is empty; writing one
    string and then another emits what writing their concatenation
    emits.  Bytes after the first zero play no part. *)
Theorem lcd_write_string_composes
    {F} (fmt : F -> list Z) (a b after after' : list Z) (s : lcd) :
  Forall (fun c => c <> 0) a ->
  Forall (fun c => c <> 0) b ->
  lcd_write_string (a ++ 0 :: after) s = run fmt (map WriteChar a) s
  /\ lcd_write_string (0 :: after) s = Some (tt, s, [])
  /\ run fmt [WriteString (a ++ 0 :: after); WriteString (b ++ 0 :: after')] s
     = lcd_write_string ((a ++ b) ++ 0 :: after') s.
Proof.
  intros Ha Hb.
  assert (Hab : Forall (fun c => c <> 0) (a ++ b))
    by (apply Forall_app; split; assumption).
  split; [|split].
  - rewrite run_write_chars, lcd_write_string_eq, c_string_terminated by exact Ha.
    reflexivity.
  - reflexivity.
  - cbn [run call]. unfold bind.
    rewrite (lcd_write_string_eq (a ++ 0 :: after)),
      (lcd_write_string_eq ((a ++ b) ++ 0 :: after')).
    rewrite !c_string_terminated by assumption.
    cbv beta iota delta [ret].
    rewrite lcd_write_string_eq, c_string_terminated by assumption.
    rewrite app_nil_r, flat_map_app. reflexivity.
Qed.

(** Instance of X11: "H" and then "i". *)
Lemma lcd_write_string_composes_witness :
  let s := mkLcd 1 2 3 4 5 6 0x08 0x04 0x02 in
  lcd_write_string [0x48; 0] s
  = run (fun _ : unit => []) [WriteChar 0x48] s
  /\ run (fun _ : unit => []) [WriteString [0x48; 0]; WriteString [0x69; 0]] s
     = lcd_write_string [0x48; 0x69; 0] s.
Proof.
  intros s.
  assert (Ha : Forall (fun c => c <> 0) [0x48]) by (repeat constructor; lia).
  assert (Hb : Forall (fun c => c <> 0) [0x69]) by (repeat constructor; lia).
  destruct (lcd_write_string_composes (fun _ : unit => [])
              [0x48] [0x69] [] [] s Ha Hb) as (H1 & _ & H3).
  split; [exact H1 | exact H3].
Defined.

(** ** X12, X13: the DDRAM address of a cursor position *)

Lemma ddram_byte_wraps x :
  u8 (Z.lor LCD_SETDDRAMADDR (x + 128)) = u8 (Z.lor LCD_SETDDRAMADDR x).
Proof.
  apply Z.bits_inj'. intros n Hn.
  rewrite !u8_testbit, !Z.lor_spec by exact Hn.
  destruct (Z.ltb_spec n 8) as [H8|H8]; [|reflexivity]. cbn [andb].
  destruct (Z.eq_dec n 7) as [->|H7]; [reflexivity|].
  f_equal.
  assert (Hlow : forall y, Z.testbit y n = Z.testbit (y mod 2 ^ 7) n)
    by (intros y; rewrite Z.mod_pow2_bits_low by lia; reflexivity).
  rewrite (Hlow (x + 128)), (Hlow x). f_equal.
  change 128 with (1 * 2 ^ 7). apply Z_mod_plus_full.
Qed.

(** X12.  The column is taken modulo 128: [lcd_set_cursor] with the
    column raised by 128 emits the same events, on every row. *)
Theorem lcd_set_cursor_column_wraps (col row : Z) (s : lcd) :
  lcd_set_cursor (col + 128) row s = lcd_set_cursor col row s.
Proof.
  unfold lcd_set_cursor, lcd_set_cursor_lines.
  destruct (nth_error row_offsets _) as [offset|]; [|reflexivity].
  rewrite !lcd_command_eq.
  replace (col + 128 + offset) with (col + offset + 128) by lia.
  rewrite ddram_byte_wraps. reflexivity.
Qed.

Lemma ddram_byte_small x :
  0 <= x < 128 -> u8 (Z.lor LCD_SETDDRAMADDR x) = LCD_SETDDRAMADDR + x.
Proof.
  intros Hx.
  pose proof (ddram_byte_range x) as Hr.
  pose proof (ddram_byte_payload x) as Hp.
  rewrite Z.mod_small in Hp by lia.
  unfold payload in Hp. change (LCD_SETDDRAMADDR - 1) with (Z.ones 7) in Hp.
  rewrite Z.land_ones in Hp by lia. change (2 ^ 7) with 128 in Hp.
  change LCD_SETDDRAMADDR with 128 in *.
  pose proof (Z.div_mod (u8 (Z.lor 128 x)) 128 ltac:(lia)) as Hd.
  assert (Hq : u8 (Z.lor 128 x) / 128 = 1).
  { apply Z.le_antisymm.
    - apply Z.lt_succ_r. apply Z.div_lt_upper_bound; lia.
    - apply Z.div_le_lower_bound; lia. }
  rewrite Hq, Hp in Hd. lia.
Qed.

Lemma lcd_set_cursor_visible col row s :
  0 <= col < 64 -> 0 <= row ->
  lcd_set_cursor col row s
  = Some (tt, s, send_events s (0x80 + 0x40 * Z.min row 1 + col) 0).
Proof.
  intros Hc Hr. unfold lcd_set_cursor.
  rewrite lcd_set_cursor_lines_eq by (unfold NUM_LINES; lia).
  change (Z.of_nat (List.length row_offsets) - 1) with 3.
  change (NUM_LINES - 1) with 1.
  replace (Z.min row (Z.min 3 1)) with (Z.min row 1) by lia.
  assert (C : Z.min row 1 = 0 \/ Z.min row 1 = 1) by lia.
  destruct C as [-> | ->].
  - change (nth (Z.to_nat 0) row_offsets 0) with 0.
    rewrite ddram_byte_small by lia.
    do 3 f_equal. unfold LCD_SETDDRAMADDR. lia.
  - change (nth (Z.to_nat 1) row_offsets 0) with 0x40.
    rewrite ddram_byte_small by lia.
    do 3 f_equal. unfold LCD_SETDDRAMADDR. lia.
Qed.

(** X13.  For columns 0..63 the byte sent is 0x80 + 0x40 * min(row, 1) +
    column, so two positions get the same address only when they have the
    same column and the same row after clamping; past that range the rows
    overlap: column 64 + c of row 0 is the address of column c of row 1. *)
Theorem lcd_set_cursor_addresses (col1 row1 col2 row2 : Z) (s : lcd) :
  0 <= col1 < 64 -> 0 <= col2 < 64 -> 0 <= row1 -> 0 <= row2 ->
  let b1 := 0x80 + 0x40 * Z.min row1 1 + col1 in
  let b2 := 0x80 + 0x40 * Z.min row2 1 + col2 in
  lcd_set_cursor col1 row1 s = Some (tt, s, send_events s b1 0)
  /\ lcd_set_cursor col2 row2 s = Some (tt, s, send_events s b2 0)
  /\ (b1 = b2 <-> col1 = col2 /\ Z.min row1 1 = Z.min row2 1)
  /\ lcd_set_cursor (64 + col1) 0 s = lcd_set_cursor col1 1 s.
Proof.
  intros H1 H2 R1 R2 b1 b2.
  split; [apply lcd_set_cursor_visible; assumption|].
  split; [apply lcd_set_cursor_visible; assumption|].
  split; [subst b1 b2; lia|].
  rewrite (lcd_set_cursor_visible col1 1) by lia.
  unfold lcd_set_cursor.
  rewrite lcd_set_cursor_lines_eq by (unfold NUM_LINES; lia).
  change (nth _ row_offsets 0) with 0.
  rewrite ddram_byte_small by lia.
  change (Z.min 1 1) with 1.
  replace (LCD_SETDDRAMADDR + (64 + col1 + 0)) with (0x80 + 0x40 * 1 + col1)
    by (unfold LCD_SETDDRAMADDR; lia).
  reflexivity.
Qed.

(** Instance of X13: the last cell of the first line and the first cell
    of the second line. *)
Lemma lcd_set_cursor_addresses_witness :
  let s := mkLcd 1 2 3 4 5 6 0x08 0x04 0x02 in
  lcd_set_cursor 15 0 s = Some (tt, s, send_events s 0x8F 0)
  /\ lcd_set_cursor 0 1 s = Some (tt, s, send_events s 0xC0 0).
Proof.
  intros s.
  destruct (lcd_set_cursor_addresses 15 0 0 1 s
              ltac:(lia) ltac:(lia) ltac:(lia) ltac:(lia))
    as (H1 & H2 & _).
  split; [exact H1 | exact H2].
Defined.

(** ** X14: the bytes a program can put on the bus *)

Lemma call_monitor_app {F} (fmt : F -> list Z) (o : op F) s s' tr :
  call fmt o s = Some (tt, s', tr) ->
  forall rest, bus_monitor (tr ++ rest) = bus_monitor tr ++ bus_monitor rest.
Proof.
  intros H. destruct (call_synced fmt o s s' tr H) as (lg & Hlg & _).
  assert (Hnil : bus_monitor tr = lg).
  { rewrite <- (app_nil_r tr), Hlg. cbn [bus_monitor monitor_from].
    apply app_nil_r. }
  intros rest. rewrite Hlg, Hnil. reflexivity.
Qed.

Lemma flag_masks {F} (o : op F) r mask on :
  flag_of o = Some (r, mask, on) ->
  match r with
  | Control => mask = 1 \/ mask = 2 \/ mask = 4
  | Mode => mask = 1 \/ mask = 2
  end.
Proof.
  intros Hf. destruct o; try discriminate Hf; inversion Hf; subst; cbn; auto.
Qed.

Lemma flip_control_range mask on x :
  mask = 1 \/ mask = 2 \/ mask = 4 -> 0 <= x < 8 ->
  0 <= flip mask on x < 8
  /\ is_display_control (u8 (Z.lor LCD_DISPLAYCONTROL (flip mask on x))) = true.
Proof.
  intros Hm Hx.
  destruct on; destruct Hm as [-> | [-> | ->]]; by_flags x Hx.
Qed.

Lemma flip_mode_range mask on x :
  mask = 1 \/ mask = 2 -> 0 <= x < 4 ->
  0 <= flip mask on x < 4
  /\ is_entry_mode_set (u8 (Z.lor LCD_ENTRYMODESET (flip mask on x))) = true.
Proof.
  intros Hm Hx.
  assert (C : x = 0 \/ x = 1 \/ x = 2 \/ x = 3) by lia.
  destruct on; destruct Hm as [-> | ->];
    destruct C as [-> | [-> | [-> | ->]]]; vm_compute; intuition congruence.
Qed.

Lemma allowed_data (f : Z -> Z) chars :
  forallb allowed_transfer (map (fun c => (1, u8 (f c))) chars) = true.
Proof.
  induction chars as [|c chars IH]; [reflexivity|].
  cbn [map forallb allowed_transfer Z.eqb]. rewrite IH, andb_true_r.
  pose proof (u8_range (f c)) as Hr.
  apply andb_true_iff. split; [apply Z.leb_le | apply Z.ltb_lt]; lia.
Qed.

Lemma call_vocabulary {F} (fmt : F -> list Z) (o : op F) s s' tr :
  flags_only s ->
  call fmt o s = Some (tt, s', tr) ->
  flags_only s' /\ forallb allowed_transfer (bus_monitor tr) = true.
Proof.
  intros [Fc Fm] H.
  destruct (flag_of o) as [[[r mask] on]|] eqn:Hf.
  - rewrite (call_flag fmt o r mask on s Hf) in H.
    apply result_inv in H as (_ & -> & ->).
    pose proof (flag_masks o r mask on Hf) as Hm.
    rewrite monitor_one.
    destruct r; unfold flags_only, apply_flag, flag_command;
      cbn [set_display_control set_display_mode display_control display_mode].
    + destruct (flip_control_range mask on _ Hm Fc) as [Hr Hk].
      split; [split; assumption|].
      cbn [forallb allowed_transfer Z.eqb]. rewrite u8_idem, Hk.
      rewrite !orb_true_r. reflexivity.
    + destruct (flip_mode_range mask on _ Hm Fm) as [Hr Hk].
      split; [split; assumption|].
      cbn [forallb allowed_transfer Z.eqb]. rewrite u8_idem, Hk.
      rewrite !orb_true_r. reflexivity.
  - destruct o; try discriminate Hf; cbn [call] in H.
    + rewrite lcd_init_eq in H. cbv zeta in H.
      apply result_inv in H as (_ & -> & ->).
      split; [unfold flags_only; cbn; lia | reflexivity].
    + rewrite lcd_clear_eq in H. apply result_inv in H as (_ & -> & ->).
      split; [split; assumption | reflexivity].
    + rewrite lcd_home_eq in H. apply result_inv in H as (_ & -> & ->).
      split; [split; assumption | reflexivity].
    + rewrite lcd_shift_left_eq in H. apply result_inv in H as (_ & -> & ->).
      split; [split; assumption | reflexivity].
    + rewrite lcd_shift_right_eq in H. apply result_inv in H as (_ & -> & ->).
      split; [split; assumption | reflexivity].
    + apply lcd_set_cursor_inv in H as (-> & x & ->).
      split; [split; assumption|].
      rewrite monitor_one, u8_idem.
      pose proof (ddram_byte_range x) as Hr.
      assert (Hd : is_set_ddram_addr (u8 (Z.lor LCD_SETDDRAMADDR x)) = true).
      { unfold is_set_ddram_addr.
        apply andb_true_iff. split; [apply Z.leb_le | apply Z.ltb_lt]; lia. }
      cbn [forallb allowed_transfer Z.eqb]. rewrite Hd, !orb_true_r.
      reflexivity.
    + rewrite lcd_write_char_eq in H. apply result_inv in H as (_ & -> & ->).
      split; [split; assumption|].
      rewrite monitor_one. apply (allowed_data u8 [data]).
    + apply lcd_write_string_inv in H as (-> & chars & _ & ->).
      split; [split; assumption|].
      rewrite <- (app_nil_r (flat_map _ chars)), monitor_data_sends.
      cbn [bus_monitor monitor_from]. rewrite app_nil_r.
      rewrite <- (allowed_data u8 chars). f_equal. apply map_ext.
      intros c. rewrite u8_idem. reflexivity.
    + apply formatted_write_inv in H as (-> & chars & ->).
      split; [split; assumption|].
      rewrite <- (app_nil_r (flat_map _ chars)), monitor_data_sends.
      cbn [bus_monitor monitor_from]. rewrite app_nil_r.
      rewrite <- (allowed_data u8 chars). f_equal. apply map_ext.
      intros c. rewrite u8_idem. reflexivity.
    + apply formatted_write_inv in H as (-> & chars & ->).
      split; [split; assumption|].
      rewrite <- (app_nil_r (flat_map _ chars)), monitor_data_sends.
      cbn [bus_monitor monitor_from]. rewrite app_nil_r.
      rewrite <- (allowed_data u8 chars). f_equal. apply map_ext.
      intros c. rewrite u8_idem. reflexivity.
Qed.

Lemma allowed_not_cgram b :
  allowed_transfer (0, b) = true ->
  ~ (LCD_SETCGRAMADDR <= b < LCD_SETDDRAMADDR).
Proof.
  cbn [allowed_transfer Z.eqb].
  unfold is_entry_mode_set, is_display_control, is_set_ddram_addr,
    LCD_CLEARDISPLAY, LCD_RETURNHOME, LCD_ENTRYMODESET, LCD_DISPLAYCONTROL,
    LCD_CURSORSHIFT, LCD_SETCGRAMADDR, LCD_SETDDRAMADDR.
  intros H Hb.
  repeat (apply orb_true_iff in H as [H | H]);
    repeat (apply andb_true_iff in H as [? H]);
    repeat match goal with
      | X : (_ =? _) = true |- _ => apply Z.eqb_eq in X
      | X : (_ <=? _) = true |- _ => apply Z.leb_le in X
      | X : (_ <? _) = true |- _ => apply Z.ltb_lt in X
      end; lia.
Qed.

(** X14.  Start in a state whose two flag bytes hold flag bits only, as at
    program start, and run any program of public operations to its end.
    Every transfer on the bus is then either a data byte or one of the
    commands the source spells out: Clear-Display, Return-Home,
    Entry-Mode-Set, Display-Control, a display shift (0x18, 0x1C),
    Function-Set 0x28 or Set-DDRAM-Address.  In particular no
    Set-CGRAM-Address command is ever sent, and the flag bytes still hold
    flag bits only. *)
Theorem program_vocabulary
    {F} (fmt : F -> list Z) (ops : list (op F)) (s s' : lcd) (tr : trace) :
  flags_only s ->
  run fmt ops s = Some (tt, s', tr) ->
  forallb allowed_transfer (bus_monitor tr) = true
  /\ (forall b, In (0, b) (bus_monitor tr) ->
        ~ (LCD_SETCGRAMADDR <= b < LCD_SETDDRAMADDR))
  /\ flags_only s'.
Proof.
  intros Hs Hrun.
  assert (Hmain : forallb allowed_transfer (bus_monitor tr) = true
                  /\ flags_only s').
  { revert s tr Hs Hrun.
    induction ops as [|o ops IH]; intros s tr Hs Hrun; cbn [run] in Hrun.
    - apply result_inv in Hrun as (_ & -> & ->). split; [reflexivity | exact Hs].
    - apply bind_inv in Hrun as ([] & s1 & t1 & t2 & Hc & Hr & ->).
      destruct (call_vocabulary fmt o s s1 t1 Hs Hc) as [Hs1 Ha1].
      destruct (IH s1 t2 Hs1 Hr) as [Ha2 Hs2].
      rewrite (call_monitor_app fmt o s s1 t1 Hc), forallb_app, Ha1, Ha2.
      split; [reflexivity | exact Hs2]. }
  destruct Hmain as [Ha Hf]. split; [exact Ha|]. split; [|exact Hf].
  intros b Hin. apply allowed_not_cgram.
  rewrite forallb_forall in Ha. apply Ha. exact Hin.
Qed.

(** Instance of X14: a program run from the boot state, before and after
    [lcd_init]. *)
Lemma program_vocabulary_witness :
  match
    run (fun _ : unit => [0x31; 0x2E; 0x35])
        [BlinkOn; Init 1 2 3 4 5 6; SetCursor 200 9; WriteFloat tt;
         ShiftLeft; RightToLeft; Home]
        lcd_boot
  with
  | Some (_, s', tr) =>
      forallb allowed_transfer (bus_monitor tr) = true /\ flags_only s'
  | None => False
  end.
Proof.
  assert (Hb : flags_only lcd_boot) by (unfold flags_only; cbn; lia).
  destruct (run _ _ lcd_boot) as [[[[] s'] tr]|] eqn:E.
  - destruct (program_vocabulary _ _ lcd_boot s' tr Hb E) as (Ha & _ & Hf).
    split; [exact Ha | exact Hf].
  - vm_compute in E. discriminate E.
Defined.

(** ** X15: the number [lcd_write_int] shows *)

Lemma digits_nonzero d :
  Forall (fun c => c <> zero)
         (list_ascii_of_string (NilEmpty.string_of_uint d)).
Proof.
  induction d; cbn [NilEmpty.string_of_uint list_ascii_of_string];
    constructor; try discriminate; assumption.
Qed.

Lemma numeral_nonzero d :
  Forall (fun c => c <> zero)
         (list_ascii_of_string (NilZero.string_of_int d)).
Proof.
  assert (Hu : forall u, Forall (fun c => c <> zero)
                 (list_ascii_of_string (NilZero.string_of_uint u))).
  { intros u. destruct u; try apply digits_nonzero.
    cbn. constructor; [discriminate | constructor]. }
  destruct d as [u|u]; cbn [NilZero.string_of_int list_ascii_of_string].
  - apply Hu.
  - constructor; [discriminate | apply Hu].
Qed.

Lemma char_code_range c :
  c <> zero -> 0 < Z.of_N (N_of_ascii c) < 256.
Proof.
  intros Hc. pose proof (N_ascii_bounded c) as Hb.
  assert (Hn : N_of_ascii c <> 0%N).
  { intros E. apply Hc. rewrite <- (ascii_N_embedding c), E. reflexivity. }
  lia.
Qed.

Lemma sprintf_d_bytes num : Forall (fun b => 0 < b < 256) (sprintf_d num).
Proof.
  unfold sprintf_d. apply Forall_map.
  eapply Forall_impl; [|apply numeral_nonzero].
  cbn beta. intros c Hc. apply char_code_range. exact Hc.
Qed.

Lemma sprintf_d_value num :
  decimal_value (sprintf_d num) = Some (as_int32 num).
Proof.
  unfold decimal_value, text_of_bytes, sprintf_d.
  rewrite map_map.
  rewrite (map_ext _ (fun c => c)), map_id
    by (intros c; rewrite N2Z.id; apply ascii_N_embedding).
  rewrite string_of_list_ascii_of_string.
  rewrite NilZero.isi.
  - cbn [option_map]. rewrite DecimalZ.of_to. reflexivity.
  - destruct (as_int32 num); cbn [Z.to_int]; try discriminate.
    intros E. inversion E as [E']. exact (DecimalPos.Unsigned.to_uint_nonnil _ E').
  - destruct (as_int32 num); cbn [Z.to_int]; try discriminate.
    intros E. inversion E as [E']. exact (DecimalPos.Unsigned.to_uint_nonnil _ E').
Qed.

(** X15.  When the text fits the buffer, [lcd_write_int] transfers to the
    data register exactly the characters of a decimal numeral, and that
    numeral denotes the argument read as a signed 32-bit [int]: the
    argument itself below 2^31, the argument minus 2^32 from 2^31 up (the
    [uint32_t] goes through ["%d"]).  The state is unchanged. *)
Theorem lcd_write_int_shows_signed_value (num : Z) (s s' : lcd) (tr : trace) :
  lcd_write_int num s = Some (tt, s', tr) ->
  s' = s
  /\ (List.length (sprintf_d num) < 10)%nat
  /\ bus_monitor tr = map (fun c => (1, c)) (sprintf_d num)
  /\ decimal_value (map snd (bus_monitor tr))
     = Some (if num <? 2 ^ 31 then num else num - 2 ^ 32).
Proof.
  intros H. unfold lcd_write_int in H.
  apply bind_inv in H as (str & s1 & t1 & t2 & Hf & Hw & ->).
  apply into_str10_inv in Hf as (-> & -> & -> & Hfit).
  apply lcd_write_string_inv in Hw as (-> & chars & Hc & ->).
  pose proof (sprintf_d_bytes num) as Hb.
  assert (Hnz : Forall (fun c => c <> 0) (sprintf_d num)).
  { eapply Forall_impl; [|exact Hb]. cbn beta. intros; lia. }
  rewrite c_string_terminated in Hc by exact Hnz.
  injection Hc as <-.
  assert (Hlog : bus_monitor ([] ++ flat_map (fun c => send_events s (u8 c) 1)
                                      (sprintf_d num))
                 = map (fun c => (1, c)) (sprintf_d num)).
  { cbn [app].
    rewrite <- (app_nil_r (flat_map _ _)), monitor_data_sends.
    cbn [bus_monitor monitor_from]. rewrite app_nil_r.
    apply map_ext_Forall. eapply Forall_impl; [|exact Hb].
    cbn beta. intros c Hc. rewrite u8_small by lia. reflexivity. }
  split; [reflexivity|]. split; [exact Hfit|]. split; [exact Hlog|].
  rewrite Hlog, map_map. cbn [snd]. rewrite map_id.
  apply sprintf_d_value.
Qed.

(** Instance of X15: the largest [uint32_t] is shown as -1. *)
Lemma lcd_write_int_shows_signed_value_witness :
  let s := mkLcd 1 2 3 4 5 6 0x08 0x04 0x02 in
  match lcd_write_int 4294967295 s with
  | Some (_, _, tr) =>
      bus_monitor tr = [(1, 0x2D); (1, 0x31)]
      /\ decimal_value (map snd (bus_monitor tr)) = Some (-1)
  | None => False
  end.
Proof.
  intros s.
  destruct (lcd_write_int 4294967295 s) as [[[[] s'] tr]|] eqn:E.
  - destruct (lcd_write_int_shows_signed_value 4294967295 s s' tr E)
      as (_ & _ & Hl & Hv).
    split; [exact Hl | exact Hv].
  - vm_compute in E. discriminate E.
Defined.

(** ** X16: a whole session as the controller sees it *)

Lemma latched_pins s s' lv t :
  pins s' = pins s -> latched s' lv t = latched s lv t.
Proof.
  intros Hp. destruct (pins_fields s s' Hp) as (Hr & He & H4 & H5 & H6 & H7).
  unfold latched.
  assert (Hstep : forall st e, latch_step s' st e = latch_step s st e).
  { intros st e. unfold latch_step, data_bus.
    rewrite Hr, He, H4, H5, H6, H7. reflexivity. }
  generalize (lv, @nil (Z * Z)).
  induction t as [|e t IH]; intros st; cbn [fold_left]; [reflexivity|].
  rewrite Hstep. apply IH.
Qed.

Lemma nibbles_of_app l1 l2 :
  nibbles_of (l1 ++ l2) = nibbles_of l1 ++ nibbles_of l2.
Proof. apply flat_map_app. Qed.

(** X16.  A session: [lcd_init] on six different pins with the enable
    line low at the start, then any public operations other than
    [lcd_init].  On the falling edges of the enable line the controller
    takes in the reset nibbles 3, 3, 3, 2 and then, high nibble first,
    exactly the bytes the driver transfers (the four commands of
    [lcd_init] first), each with the register select of its transfer. *)
Theorem session_latched
    {F} (fmt : F -> list Z) (rs en d4 d5 d6 d7 : Z) (ops : list (op F))
    (s0 s : lcd) (tr : trace) (lv : Z -> Z) :
  NoDup [rs; en; d4; d5; d6; d7] -> lv en = 0 ->
  Forall (fun o => is_init o = false) ops ->
  run fmt (Init rs en d4 d5 d6 d7 :: ops) s0 = Some (tt, s, tr) ->
  pins s = [rs; en; d4; d5; d6; d7]
  /\ latched s lv tr
     = [(0, 3); (0, 3); (0, 3); (0, 2)] ++ nibbles_of (bus_monitor tr)
  /\ levels_after lv tr en = 0.
Proof.
  intros Hw Hlow Hops Hrun. cbn [run] in Hrun.
  apply bind_inv in Hrun as ([] & s1 & t1 & t2 & Hi & Hr & ->).
  cbn [call] in Hi. rewrite lcd_init_eq in Hi. cbv zeta in Hi.
  apply result_inv in Hi as (_ & -> & ->).
  set (s1 := mkLcd rs en d4 d5 d6 d7 0x08 0x04 0x02) in *.
  assert (Hw1 : wired s1) by exact Hw.
  destruct (run_framed fmt ops Hops s1 s t2 Hr) as [Hp Hf].
  apply (framed_pins s s1 t2 (eq_sym Hp)) in Hf.
  destruct (init_latches s1 lv Hw1 Hlow) as [Li Ei].
  destruct (latched_framed s1 t2 Hw1 Hf _ Ei) as [L2 E2].
  split; [exact Hp|].
  rewrite (latched_pins s1 s lv _ Hp), latched_app, levels_after_app.
  rewrite Li, L2, monitor_init, nibbles_of_app.
  split; [reflexivity | exact E2].
Qed.

(** Instance of X16: initialise, write "Hi", move to the second line. *)
Lemma session_latched_witness :
  match
    run (fun _ : unit => [])
        [Init 1 2 3 4 5 6; WriteString [0x48; 0x69; 0]; SetCursor 0 1]
        lcd_boot
  with
  | Some (_, s, tr) =>
      latched s (fun _ => 0) tr
      = [(0, 3); (0, 3); (0, 3); (0, 2);
         (0, 2); (0, 8); (0, 0); (0, 12); (0, 0); (0, 1); (0, 0); (0, 6);
         (1, 4); (1, 8); (1, 6); (1, 9); (0, 12); (0, 0)]
  | None => False
  end.
Proof.
  assert (Hw : NoDup [1; 2; 3; 4; 5; 6]).
  { repeat (apply NoDup_cons; [cbn; intuition discriminate|]).
    apply NoDup_nil. }
  assert (Hops : Forall (fun o : op unit => is_init o = false)
                   [WriteString [0x48; 0x69; 0]; SetCursor 0 1])
    by (repeat constructor).
  destruct (run _ _ lcd_boot) as [[[[] s] tr]|] eqn:E.
  - destruct (session_latched _ 1 2 3 4 5 6 _ lcd_boot s tr (fun _ => 0)
                Hw eq_refl Hops E) as (_ & Hl & _).
    rewrite Hl. vm_compute in E. inversion E. reflexivity.
  - vm_compute in E. discriminate E.
Defined.
